(** * Committed content-index disk cache and block-cache selection

    A shallow embedding of the Go code of the cache subsystem:

    - package [content]: [diskCommittedContentIndexCache] with
      [indexBlobPath], [openIndex], [mmapOpenWithRetry], [hasIndexBlobID],
      [addContentToCache], [writeTempFileAtomic] and [expireUnused];
    - package [block]: [CachingOptions] and [newBlockCache].

    The Go code talks to the operating system.  The operating system is
    modelled by an explicit [world]: a table of directories, a clock, a
    script that says which system calls fail and what other processes do
    between two calls, and the trace of everything the code did.  Every
    function of the source becomes a state-passing function over [world]
    that returns Go's [(value, error)] results as values.

    What the model leaves out: a directory holds regular files only, a
    path is a directory name and an entry name (blob identifiers contain
    no path separator) and permission bits are ignored.  A system call
    that fails has no effect, except a write, which may have written the
    first bytes of its data before it failed. *)

From Stdlib Require Import ZArith Strings.Byte Ascii String.
From stdpp Require Import gmap strings list fin_maps pretty.

Local Open Scope Z_scope.

(** ** Go's [strings] package *)

Module GoStrings.

(** [func HasSuffix(s, suffix string) bool {
       return len(s) >= len(suffix) && s[len(s)-len(suffix):] == suffix }] *)
Definition HasSuffix (s suffix : string) : bool :=
  (String.length suffix <=? String.length s)%nat &&
  String.eqb
    (substring (String.length s - String.length suffix)
               (String.length suffix) s)
    suffix.

(** [func TrimSuffix(s, suffix string) string {
       if HasSuffix(s, suffix) { return s[:len(s)-len(suffix)] }
       return s }] *)
Definition TrimSuffix (s suffix : string) : string :=
  if HasSuffix s suffix
  then substring 0 (String.length s - String.length suffix) s
  else s.

End GoStrings.

(** ** Go errors: [os] errors and [github.com/pkg/errors] *)

Module GoErrors.

(** The error numbers the model distinguishes. *)
Inductive errno := ENOENT | EEXIST | EACCES | EIO | ENOSPC | EBUSY.

(** A non-nil Go [error] value.  Format strings are kept with their
    arguments instead of being rendered. *)
Inductive error :=
| PathError (e : errno)
    (* what package [os] returns for a failed call *)
| withMessage (cause : error) (format : string) (args : list string)
    (* [errors.Wrap] / [errors.Wrapf]: carries its cause *)
| fundamental (format : string) (args : list string).
    (* [errors.Errorf]: a new error, no cause *)

(** Go's [error] interface value: [None] is [nil]. *)
Abbreviation goerror := (option error).

#[global] Instance errno_eq_dec : EqDecision errno.
Proof. solve_decision. Defined.

(** [errors.Wrap(err, message)]: nil if [err] is nil. *)
Definition Wrap (err : goerror) (message : string) : goerror :=
  match err with
  | None => None
  | Some e => Some (withMessage e message [])
  end.

(** [errors.Wrapf(err, format, args...)]: nil if [err] is nil. *)
Definition Wrapf (err : goerror) (format : string) (args : list string)
  : goerror :=
  match err with
  | None => None
  | Some e => Some (withMessage e format args)
  end.

(** [errors.Errorf(format, args...)]: never nil. *)
Definition Errorf (format : string) (args : list string) : goerror :=
  Some (fundamental format args).

(** [os.IsNotExist(err)]: looks only at the error of package [os]
    itself; it does not look through the wrappers of [pkg/errors]. *)
Definition IsNotExist (err : goerror) : bool :=
  match err with
  | Some (PathError ENOENT) => true
  | _ => false
  end.

(** The error at the bottom of a chain of wrappers ([errors.Cause]). *)
Fixpoint Cause (e : error) : error :=
  match e with
  | withMessage c _ _ => Cause c
  | _ => e
  end.

End GoErrors.
Export GoErrors.

(** ** Go's [time] package *)

Module GoTime.

(** [time.Time] as nanoseconds since the epoch, [time.Duration] as a
    64-bit count of nanoseconds. *)
Abbreviation Time := Z (only parsing).
Abbreviation Duration := Z (only parsing).

Definition minDuration : Z := - 2 ^ 63.
Definition maxDuration : Z := 2 ^ 63 - 1.

Definition Nanosecond : Z := 1.
Definition Millisecond : Z := 1000000.
Definition Second : Z := 1000000000.
Definition Hour : Z := 3600 * Second.

(** 64-bit wrap-around of [Duration] arithmetic. *)
Definition wrap64 (z : Z) : Z := (z + 2 ^ 63) mod 2 ^ 64 - 2 ^ 63.

(** [t.Sub(u)]: the difference, saturated at the range of [Duration]. *)
Definition Sub (t u : Z) : Z :=
  let d := t - u in
  if d >? maxDuration then maxDuration
  else if d <? minDuration then minDuration
  else d.

End GoTime.

(** ** The operating system: files, clock, faults, other processes *)

Module GoOS.

(** A regular file: its bytes and its modification time. *)
Record file := File { f_data : list byte; f_mtime : Z }.

(** A directory maps entry names to files; the file system maps directory
    names to directories.  A directory name that is not a key does not
    exist. *)
Abbreviation directory := (gmap string file).
Abbreviation filesystem := (gmap string (gmap string file)).

(** A path is a directory and an entry name. *)
Record path := Path { p_dir : string; p_base : string }.

(** [filepath.Join(dir, name)] for a [name] that is one path element (a
    file name: no separator in it).  Go's [Join] also cleans its result,
    so a name with a separator or a dot segment in it could leave [dir]
    or meet another name; [file_name] below says which names are meant,
    and the statements that depend on it assume it. *)
Definition Join (dir name : string) : path := Path dir name.

(** Go's empty string where a path is expected. *)
Definition no_path : path := Path "" "".

#[global] Instance path_eq_dec : EqDecision path.
Proof. solve_decision. Defined.

(** [os.FileInfo], as far as the code reads it: [Name()] and [ModTime()]. *)
Record FileInfo := mkFileInfo { fi_Name : string; fi_Size : Z; fi_ModTime : Z }.

(** What another process, or the passing of time, does between two system
    calls of the code. *)
Inductive env_action :=
| EnvPublish (p : path) (data : list byte)
| EnvRemove (p : path)
| EnvTick (d : Z).

(** One entry of the script: what happens just before the next system
    call, whether that call fails, and, for a write that fails, how many
    of its bytes it wrote before it failed. *)
Record sched := PartialSched {
  s_env : list env_action;
  s_fault : option errno;
  s_written : nat
}.

(** The entry of a call that, when it fails, has done nothing. *)
Definition Sched (env : list env_action) (fault : option errno) : sched :=
  PartialSched env fault 0.

Definition quiet : sched := Sched [] None.

Inductive syscall :=
| Stat (p : path)
| CreateTemp (dir pattern : string)
| MkdirAll (dir : string)
| FWrite (p : path) (data : list byte)
| FClose (p : path)
| Rename (oldpath newpath : path)
| ReadDir (dir : string)
| Remove (p : path)
| MmapOpen (p : path).

Inductive level := LDebug | LError.

Inductive logarg :=
| ArgStr (s : string)
| ArgInt (z : Z)
| ArgTime (t : Z)
| ArgErr (e : goerror)
| ArgIDs (l : list string).

Inductive event :=
| EvSys (c : syscall) (err : option errno)
| EvSleep (d : Z)
| EvLog (lvl : level) (format : string) (args : list logarg).

Record world := World {
  w_fs : filesystem;
  w_now : Z;                  (* the clock *)
  w_script : list sched;      (* faults and interference still to come *)
  w_maporder : list nat;      (* seeds of Go's random map iteration order *)
  w_trace : list event        (* what the code did so far, oldest first *)
}.

Definition with_fs (fs : filesystem) (w : world) : world :=
  World fs (w_now w) (w_script w) (w_maporder w) (w_trace w).
Definition with_now (t : Z) (w : world) : world :=
  World (w_fs w) t (w_script w) (w_maporder w) (w_trace w).
Definition with_script (s : list sched) (w : world) : world :=
  World (w_fs w) (w_now w) s (w_maporder w) (w_trace w).
Definition record (ev : event) (w : world) : world :=
  World (w_fs w) (w_now w) (w_script w) (w_maporder w) (w_trace w ++ [ev]).

(** *** File-system primitives *)

Definition fs_lookup (fs : filesystem) (p : path) : option file :=
  match fs !! p_dir p with
  | Some d => d !! p_base p
  | None => None
  end.

Definition fs_put (p : path) (f : file) (fs : filesystem) : filesystem :=
  match fs !! p_dir p with
  | Some d => <[p_dir p := <[p_base p := f]> d]> fs
  | None => <[p_dir p := {[p_base p := f]}]> fs
  end.

Definition fs_del (p : path) (fs : filesystem) : filesystem :=
  match fs !! p_dir p with
  | Some d => <[p_dir p := delete (p_base p) d]> fs
  | None => fs
  end.

(** *** Temporary names

    [os.CreateTemp(dir, pattern)] appends a decimal number to the pattern
    and takes a name that is not in use.  Go draws the number at random
    and tries again on a collision; the model takes the first free one. *)
Definition tmp_name (pattern : string) (n : N) : string :=
  pattern +:+ pretty n.

Fixpoint first_free (d : directory) (pattern : string) (fuel : nat) (n : N)
  : N :=
  match fuel with
  | O => n
  | S k =>
      match d !! tmp_name pattern n with
      | Some _ => first_free d pattern k (n + 1)%N
      | None => n
      end
  end.

Definition fresh_tmp (d : directory) (pattern : string) : string :=
  tmp_name pattern (first_free d pattern (size d) 0%N).

(** *** The state monad of the code *)

Definition M (A : Type) : Type := world -> A * world.

Definition ret {A} (a : A) : M A := fun w => (a, w).

Definition bind {A B} (m : M A) (k : A -> M B) : M B :=
  fun w => let (a, w') := m w in k a w'.

(** *** Scheduling: the environment runs, then the call *)

Definition env_step (w : world) (a : env_action) : world :=
  match a with
  | EnvPublish p data => with_fs (fs_put p (File data (w_now w)) (w_fs w)) w
  | EnvRemove p => with_fs (fs_del p (w_fs w)) w
  | EnvTick d => with_now (w_now w + d) w
  end.

Definition next_sched (w : world) : sched :=
  match w_script w with
  | [] => quiet
  | s :: _ => s
  end.

Definition schedule (w : world) : world :=
  foldl env_step (with_script (tail (w_script w)) w) (s_env (next_sched w)).

(** What a system call answers. *)
Inductive reply :=
| Failed (e : errno)
| Done
| Opened (p : path)                   (* a new open file *)
| Mapped (data : list byte)           (* a read-only mapping of a file *)
| Listing (entries : list FileInfo).  (* the entries of a directory *)

Definition reply_errno (r : reply) : option errno :=
  match r with
  | Failed e => Some e
  | _ => None
  end.

Definition stat_of (name : string) (f : file) : FileInfo :=
  mkFileInfo name (Z.of_nat (length (f_data f))) (f_mtime f).

(** What the kernel does for a call that is not made to fail. *)
Definition kernel (c : syscall) (w : world) : reply * world :=
  match c with
  | Stat p =>
      match fs_lookup (w_fs w) p with
      | Some _ => (Done, w)
      | None => (Failed ENOENT, w)
      end
  | CreateTemp dir pattern =>
      match w_fs w !! dir with
      | Some d =>
          let p := Path dir (fresh_tmp d pattern) in
          (Opened p, with_fs (fs_put p (File [] (w_now w)) (w_fs w)) w)
      | None => (Failed ENOENT, w)
      end
  | MkdirAll dir =>
      match w_fs w !! dir with
      | Some _ => (Done, w)
      | None => (Done, with_fs (<[dir := ∅]> (w_fs w)) w)
      end
  | FWrite p data =>
      match fs_lookup (w_fs w) p with
      | Some f =>
          (Done, with_fs (fs_put p (File (f_data f ++ data) (w_now w))
                                 (w_fs w)) w)
      | None => (Done, w)     (* the file was unlinked: the bytes are lost *)
      end
  | FClose p => (Done, w)
  | Rename oldpath newpath =>
      match fs_lookup (w_fs w) oldpath, w_fs w !! p_dir newpath with
      | Some f, Some _ =>
          (Done, with_fs (fs_put newpath f (fs_del oldpath (w_fs w))) w)
      | _, _ => (Failed ENOENT, w)
      end
  | ReadDir dir =>
      match w_fs w !! dir with
      | Some d => (Listing (map (fun nf => stat_of nf.1 nf.2) (map_to_list d)), w)
      | None => (Failed ENOENT, w)
      end
  | Remove p =>
      match fs_lookup (w_fs w) p with
      | Some _ => (Done, with_fs (fs_del p (w_fs w)) w)
      | None => (Failed ENOENT, w)
      end
  | MmapOpen p =>
      match fs_lookup (w_fs w) p with
      | Some f => (Mapped (f_data f), w)
      | None => (Failed ENOENT, w)
      end
  end.

(** What a call that is made to fail has done all the same.  [tf.Write]
    returns the number of bytes written together with its error: a write
    can fail (disk full, I/O error) after the first [written] bytes went
    to the file.  Every other call of the code either happens or does
    not. *)
Definition failed (c : syscall) (written : nat) (w : world) : world :=
  match c with
  | FWrite p data =>
      match take written data with
      | [] => w
      | prefix => (kernel (FWrite p prefix) w).2
      end
  | _ => w
  end.

(** A system call: the environment acts, then the call either fails as the
    script says or is served by the kernel; the call and its outcome are
    appended to the trace. *)
Definition sys (c : syscall) : M reply := fun w =>
  let fault := s_fault (next_sched w) in
  let written := s_written (next_sched w) in
  let w1 := schedule w in
  let (r, w2) := match fault with
                 | Some e => (Failed e, failed c written w1)
                 | None => kernel c w1
                 end in
  (r, record (EvSys c (reply_errno r)) w2).

(** Go's [(value, err)] where exactly one of the two is set. *)
Inductive result (A : Type) :=
| Ok (a : A)
| Err (e : error).
Arguments Ok {A} a.
Arguments Err {A} e.

Definition err_of {A} (r : result A) : goerror :=
  match r with
  | Ok _ => None
  | Err e => Some e
  end.

Definition os_error (r : reply) : goerror :=
  match r with
  | Failed e => Some (PathError e)
  | _ => None
  end.

End GoOS.
Export GoOS.

Declare Scope go_scope.
Delimit Scope go_scope with go.
Notation "'let*' x ':=' c 'in' k" := (bind c (fun x => k))
  (at level 10, x pattern, c at level 100, k at level 200) : go_scope.
Notation "c ;; k" := (bind c (fun _ => k))
  (at level 100, right associativity) : go_scope.
Local Open Scope go_scope.

(** *** The calls of packages [os], [ioutil], [mmap], [time] and the logger *)

Definition os_Stat (p : path) : M goerror :=
  let* r := sys (GoOS.Stat p) in ret (os_error r).

Definition os_CreateTemp (dir pattern : string) : M (result path) :=
  let* r := sys (GoOS.CreateTemp dir pattern) in
  ret (match r with
       | Opened p => Ok p
       | Failed e => Err (PathError e)
       | _ => Err (PathError EIO)
       end).

Definition os_MkdirAll (dir : string) : M goerror :=
  let* r := sys (GoOS.MkdirAll dir) in ret (os_error r).

(** [tf.Write(data)], [tf.Close()] and [tf.Name()] of an open file. *)
Definition file_Write (tf : path) (data : list byte) : M goerror :=
  let* r := sys (FWrite tf data) in ret (os_error r).

Definition file_Close (tf : path) : M goerror :=
  let* r := sys (FClose tf) in ret (os_error r).

Definition file_Name (tf : path) : path := tf.

Definition os_Rename (oldpath newpath : path) : M goerror :=
  let* r := sys (GoOS.Rename oldpath newpath) in ret (os_error r).

Definition os_Remove (p : path) : M goerror :=
  let* r := sys (GoOS.Remove p) in ret (os_error r).

(** [ioutil.ReadDir(dirname)].  Go sorts the entries by name; the only
    caller stores them in a map, so the model leaves them in the order of
    the directory table. *)
Definition ioutil_ReadDir (dir : string) : M (list FileInfo * goerror) :=
  let* r := sys (GoOS.ReadDir dir) in
  ret (match r with
       | Listing entries => (entries, None)
       | _ => ([], os_error r)
       end).

(** [mmap.Open(path)]: the mapped bytes, or an error. *)
Definition mmap_Open (p : path) : M (result (list byte)) :=
  let* r := sys (MmapOpen p) in
  ret (match r with
       | Mapped data => Ok data
       | Failed e => Err (PathError e)
       | _ => Err (PathError EIO)
       end).

(** [time.Sleep(d)]: the clock moves on by [d]. *)
Definition time_Sleep (d : Z) : M unit := fun w =>
  (tt, record (EvSleep d) (with_now (w_now w + Z.max 0 d) w)).

Definition log_Debugf (format : string) (args : list logarg) : M unit :=
  fun w => (tt, record (EvLog LDebug format args) w).

Definition log_Errorf (format : string) (args : list logarg) : M unit :=
  fun w => (tt, record (EvLog LError format args) w).

(** [for _, x := range l { body }] over a slice. *)
Fixpoint for_each {A} (l : list A) (body : A -> M unit) : M unit :=
  match l with
  | [] => ret tt
  | x :: l' => body x ;; for_each l' body
  end.

(** The order in which [range] visits a map is not specified by Go: the
    seeds of the world pick, one after the other, the next entry among
    those that are left. *)
Fixpoint shuffle {A} (seeds : list nat) (l : list A) : list A :=
  match seeds with
  | [] => l
  | k :: seeds' =>
      let i := (k `mod` length l)%nat in
      match l !! i with
      | Some x => x :: shuffle seeds' (delete i l)
      | None => l
      end
  end.

Definition range {V} (m : gmap string V) : M (list (string * V)) :=
  fun w => (shuffle (w_maporder w) (map_to_list m), w).

(** ** Package [content]: the committed content-index disk cache *)

Module content.

Definition simpleIndexSuffix : string := ".sndx".

(** delete unused committed index blobs after 1 hour *)
Definition unusedCommittedContentIndexCleanupTime : Z := 1 * GoTime.Hour.

Record diskCommittedContentIndexCache := {
  dirname : string;
  timeNow : world -> Z;         (* [func() time.Time], reads the world *)
  v1PerContentOverhead : Z;
  log : string
}.

Definition indexBlobPath (c : diskCommittedContentIndexCache)
    (indexBlobID : string) : path :=
  Join (dirname c) (indexBlobID +:+ simpleIndexSuffix).

Definition call_timeNow (c : diskCommittedContentIndexCache) : M Z :=
  fun w => (timeNow c w, w).

(** *** [mmapOpenWithRetry] *)

Definition maxRetries : Z := 8.
Definition startingDelay : Z := 10 * GoTime.Millisecond.

(** The [for err != nil && retryCount < maxRetries] loop.  [fuel] only
    bounds the recursion; [mmapOpenWithRetry] starts it with as much fuel
    as [maxRetries], which the loop never uses up before [retryCount]
    reaches [maxRetries]. *)
Fixpoint mmapOpenRetryLoop (p : path) (fuel : nat)
    (retryCount nextDelay : Z) (r : result (list byte))
  : M (result (list byte)) :=
  match r with
  | Ok _ => ret r
  | Err e =>
      if retryCount <? maxRetries then
        match fuel with
        | O => ret r
        | S fuel' =>
            let retryCount := retryCount + 1 in
            log_Debugf "retry #%v unable to mmap.Open(): %v"
                       [ArgInt retryCount; ArgErr (Some e)] ;;
            time_Sleep nextDelay ;;
            let nextDelay := GoTime.wrap64 (nextDelay * 2) in
            let* r := mmap_Open p in
            mmapOpenRetryLoop p fuel' retryCount nextDelay r
        end
      else ret r
  end.

Definition mmapOpenWithRetry (c : diskCommittedContentIndexCache) (p : path)
  : M (option (list byte) * goerror) :=
  (* retry milliseconds: 10, 20, 40, 80, 160, 320, 640, 1280, total ~2.5s *)
  let* r := mmap_Open p in
  let nextDelay := startingDelay in
  let retryCount := 0 in
  let* r := mmapOpenRetryLoop p (Z.to_nat maxRetries) retryCount nextDelay r in
  ret (match r with
       | Ok f => (Some f, Wrap None "mmap() error")
       | Err e => (None, Wrap (Some e) "mmap() error")
       end).

(** [openPackIndex] belongs to the index-format parser, which is not part
    of this development: it is an argument. *)
Definition openIndex {packIndex : Type}
    (openPackIndex : option (list byte) -> Z -> option packIndex * goerror)
    (c : diskCommittedContentIndexCache) (indexBlobID : string)
  : M (option packIndex * goerror) :=
  let fullpath := indexBlobPath c indexBlobID in
  let* (f, err) := mmapOpenWithRetry c fullpath in
  match err with
  | Some _ => ret (None, err)
  | None => ret (openPackIndex f (v1PerContentOverhead c))
  end.

(** *** [hasIndexBlobID] *)

Definition hasIndexBlobID (c : diskCommittedContentIndexCache)
    (indexBlobID : string) : M (bool * goerror) :=
  let* err := os_Stat (indexBlobPath c indexBlobID) in
  match err with
  | None => ret (true, None)
  | Some _ =>
      if IsNotExist err then ret (false, None)
      else ret (false, Wrapf err "error checking %v" [indexBlobID])
  end.

(** *** [writeTempFileAtomic] *)

Definition writeTempFileAtomic (dirname : string) (data : list byte)
  : M (path * goerror) :=
  (* write to a temp file to avoid race where two processes are writing
     at the same time. *)
  let* r := os_CreateTemp dirname "tmp" in
  let* r := match r with
            | Err e =>
                if IsNotExist (Some e) then
                  os_MkdirAll dirname ;;
                  os_CreateTemp dirname "tmp"
                else ret r
            | Ok _ => ret r
            end in
  match r with
  | Err e => ret (no_path, Wrap (Some e) "can't create tmp file")
  | Ok tf =>
      let* err := file_Write tf data in
      match err with
      | Some _ => ret (no_path, Wrap err "can't write to temp file")
      | None =>
          let* err := file_Close tf in
          match err with
          | Some _ => ret (no_path, GoErrors.Errorf "can't close tmp file" [])
          | None => ret (file_Name tf, None)
          end
      end
  end.

(** *** [addContentToCache] *)

Definition addContentToCache (c : diskCommittedContentIndexCache)
    (indexBlobID : string) (data : list byte) : M goerror :=
  let* (exists_, err) := hasIndexBlobID c indexBlobID in
  match err with
  | Some _ => ret err
  | None =>
      if exists_ : bool then ret None
      else
        let* (tmpFile, err) := writeTempFileAtomic (dirname c) data in
        match err with
        | Some _ => ret err
        | None =>
            (* rename() is atomic, so one process will succeed, but the
               other will fail *)
            let* err := os_Rename tmpFile (indexBlobPath c indexBlobID) in
            match err with
            | Some _ =>
                (* verify that the content exists *)
                let* (exists_, err) := hasIndexBlobID c indexBlobID in
                match err with
                | Some _ => ret err
                | None =>
                    if exists_ : bool then ret None
                    else ret (GoErrors.Errorf
                                "unsuccessful index write of content %q"
                                [indexBlobID])
                end
            | None => ret None
            end
        end
  end.

(** *** [expireUnused] *)

(** The body of the first loop. *)
Definition collect_step (remaining : gmap string FileInfo) (ent : FileInfo)
  : gmap string FileInfo :=
  if GoStrings.HasSuffix (fi_Name ent) simpleIndexSuffix then
    let n := GoStrings.TrimSuffix (fi_Name ent) simpleIndexSuffix in
    <[n := ent]> remaining
  else remaining.

(** The first loop: the entries with the suffix, keyed by identifier. *)
Definition collect (entries : list FileInfo) : gmap string FileInfo :=
  foldl collect_step ∅ entries.

(** The second loop: [delete(remaining, u)] for each used identifier. *)
Definition subtract (remaining : gmap string FileInfo) (used : list string)
  : gmap string FileInfo :=
  foldl (fun remaining u => delete u remaining) remaining used.

(** The body of the third loop. *)
Definition expireOne (c : diskCommittedContentIndexCache) (rem : FileInfo)
  : M unit :=
  let* now := call_timeNow c in
  if GoTime.Sub now (fi_ModTime rem) >? unusedCommittedContentIndexCleanupTime
  then
    log_Debugf "removing unused %v %v"
               [ArgStr (fi_Name rem); ArgTime (fi_ModTime rem)] ;;
    let* err := os_Remove (Join (dirname c) (fi_Name rem)) in
    match err with
    | Some _ => log_Errorf "unable to remove unused index file: %v" [ArgErr err]
    | None => ret tt
    end
  else
    log_Debugf "keeping unused %v because it's too new %v"
               [ArgStr (fi_Name rem); ArgTime (fi_ModTime rem)].

Definition expireUnused (c : diskCommittedContentIndexCache)
    (used : list string) : M goerror :=
  log_Debugf "expireUnused (except %v)" [ArgIDs used] ;;
  let* (entries, err) := ioutil_ReadDir (dirname c) in
  match err with
  | Some _ => ret (Wrap err "can't list cache")
  | None =>
      let remaining := collect entries in
      let remaining := subtract remaining used in
      let* visits := range remaining in
      for_each visits (fun kv => expireOne c kv.2) ;;
      ret None
  end.

End content.
Export content.

(** ** Package [block]: choosing the block cache *)

Module block.

Section newBlockCache.

(** [storage.Storage], the remote-storage collaborator. *)
Context {Storage : Type}.

(** CachingOptions specifies configuration of local cache. *)
Record CachingOptions := {
  CacheDirectory : string;
  MaxCacheSizeBytes : Z;          (* int64 *)
  MaxListCacheDurationSec : Z;    (* int *)
  HMACSecret : list byte
}.

(** A channel [chan struct{}]; [make] returns one that is not closed. *)
Record chan := { ch_closed : bool }.
Definition make_chan : chan := {| ch_closed := false |}.

Record nullBlockCache := { null_st : Storage }.

Record diskBlockCache := {
  st : Storage;
  directory : string;
  maxSizeBytes : Z;
  hmacSecret : list byte;
  listCacheDuration : Z;
  closed : chan
}.

(** The two implementations of the [blockCache] interface. *)
Inductive blockCache :=
| null (c : nullBlockCache)
| disk (c : diskBlockCache).

(** What the constructor does besides building a value.  [sweepDirectory]
    and [sweepDirectoryPeriodically] are methods of the disk cache that
    this development does not contain: a call is recorded, not run. *)
Inductive action :=
| call_sweepDirectory (c : diskBlockCache)
| go_sweepDirectoryPeriodically (c : diskBlockCache).

Definition newBlockCache (st : Storage) (caching : CachingOptions)
  : blockCache * list action :=
  if (MaxCacheSizeBytes caching =? 0)
     || String.eqb (CacheDirectory caching) "" then
    (null {| null_st := st |}, [])
  else
    let c := {|
      st := st;
      directory := CacheDirectory caching;
      maxSizeBytes := MaxCacheSizeBytes caching;
      hmacSecret := [] ++ HMACSecret caching;
      listCacheDuration :=
        GoTime.wrap64 (MaxListCacheDurationSec caching * GoTime.Second);
      closed := make_chan
    |} in
    (disk c, [call_sweepDirectory c; go_sweepDirectoryPeriodically c]).

End newBlockCache.

Arguments CachingOptions : clear implicits.
Arguments nullBlockCache : clear implicits.
Arguments diskBlockCache : clear implicits.
Arguments blockCache : clear implicits.
Arguments action : clear implicits.

End block.

(** ** Vocabulary of the statements *)

(** *** Names *)

(** The last character of a string, and the decimal digits. *)
Fixpoint last_char (s : string) : option ascii :=
  match s with
  | EmptyString => None
  | String a EmptyString => Some a
  | String _ s' => last_char s'
  end.

Definition is_digit (a : ascii) : bool :=
  (48 <=? nat_of_ascii a)%nat && (nat_of_ascii a <=? 57)%nat.

(** A file name: a string that is one path element, with no path
    separator in it (the slash, and the backslash of Windows).  The
    identifiers of the cache are file names: the cache stores the blob
    of [id] as the directory entry [id.sndx]. *)
Definition is_separator (a : ascii) : bool :=
  Ascii.eqb a "/" || Ascii.eqb a "092".

Fixpoint file_name (s : string) : bool :=
  match s with
  | EmptyString => true
  | String a s' => negb (is_separator a) && file_name s'
  end.

(** *** Worlds *)

(** What an [os.Stat] of [p] reports in world [w]: the fault of the script
    if there is one, else what the file system holds once the environment
    has acted. *)
Definition stat_outcome (p : path) (w : world) : option errno :=
  match s_fault (next_sched w) with
  | Some e => Some e
  | None =>
      match fs_lookup (w_fs (schedule w)) p with
      | Some _ => None
      | None => Some ENOENT
      end
  end.

(** No other process touches the files while the script runs (system
    calls may still fail). *)
Definition no_env (w : world) : Prop :=
  Forall (fun s => s_env s = []) (w_script w).

(** The other processes leave path [p] alone just before the next system
    call. *)
Definition spares (p : path) (w : world) : Prop :=
  Forall (fun a => match a with
                   | EnvPublish q _ | EnvRemove q => q <> p
                   | EnvTick _ => True
                   end) (s_env (next_sched w)).

(** *** Traces *)

(** The system calls of a trace, in order. *)
Definition calls (tr : list event) : list syscall :=
  omap (fun ev => match ev with EvSys c _ => Some c | _ => None end) tr.

Definition is_create (c : syscall) : bool :=
  match c with CreateTemp _ _ => true | _ => false end.

Definition is_mkdir (c : syscall) : bool :=
  match c with MkdirAll _ => true | _ => false end.

(** The outcomes of the [mmap.Open] calls of a trace, and its sleeps. *)
Definition mmap_attempts (tr : list event) : list (option errno) :=
  omap (fun ev => match ev with
                  | EvSys (MmapOpen _) r => Some r
                  | _ => None
                  end) tr.

Definition sleeps (tr : list event) : list Z :=
  omap (fun ev => match ev with EvSleep d => Some d | _ => None end) tr.

Definition total (l : list Z) : Z := foldr Z.add 0 l.

(** The removals of a trace with their outcomes, the errors the trace
    logs at error level, and the entries for which [expireUnused] logged
    its decision ("removing unused" or "keeping unused"). *)
Definition removals (tr : list event) : list (path * option errno) :=
  omap (fun ev => match ev with
                  | EvSys (Remove p) r => Some (p, r)
                  | _ => None
                  end) tr.

Definition failures (l : list (path * option errno)) : list goerror :=
  omap (fun pr => match pr.2 with
                  | Some e => Some (Some (PathError e))
                  | None => None
                  end) l.

Definition logged_errors (tr : list event) : list goerror :=
  omap (fun ev => match ev with
                  | EvLog LError _ [ArgErr e] => Some e
                  | _ => None
                  end) tr.

Definition decisions (tr : list event) : list string :=
  omap (fun ev => match ev with
                  | EvLog LDebug _ [ArgStr n; ArgTime _] => Some n
                  | _ => None
                  end) tr.

(** The entries for which the decision logged was "removing unused". *)
Definition removing (tr : list event) : list string :=
  omap (fun ev => match ev with
                  | EvLog LDebug format [ArgStr n; ArgTime _] =>
                      if String.eqb format "removing unused %v %v"
                      then Some n else None
                  | _ => None
                  end) tr.

(** *** The mapped open *)





(** The events of opening [p] with retries, when the opens before the
    last one failed with [errs] and the last one ended with [last]: each
    failed open is followed by the log line of the retry, with its
    number and the error, and by the sleep of that retry, 10ms doubled
    once per retry already made; the next open comes after the sleep,
    and nothing comes after the last open.  [i] is the number of retries
    already made. *)
Fixpoint retry_trace (p : path) (i : Z) (errs : list errno)
    (last : option errno) : list event :=
  match errs with
  | [] => [EvSys (MmapOpen p) last]
  | e :: errs' =>
      EvSys (MmapOpen p) (Some e)
      :: EvLog LDebug "retry #%v unable to mmap.Open(): %v"
               [ArgInt (i + 1); ArgErr (Some (PathError e))]
      :: EvSleep (startingDelay * 2 ^ i)
      :: retry_trace p (i + 1) errs' last
  end.

(** *** Expiration *)

(** The retention test of the specification: strictly more than one hour
    between the modification time and now. *)
Definition older_than_retention (now mtime : Z) : bool :=
  now - mtime >? 3600 * 1000000000.

(** What [expireUnused] removes from a directory, according to the
    specification. *)
Definition expirable (used : list string) (now : Z) (name : string)
    (f : file) : bool :=
  GoStrings.HasSuffix name simpleIndexSuffix
  && bool_decide (GoStrings.TrimSuffix name simpleIndexSuffix ∉ used)
  && older_than_retention now (f_mtime f).

(** What one turn of the sweep does to the disk when nothing fails. *)
Definition expire_step (dir : string) (now : Z) (fs : filesystem)
    (kv : string * FileInfo) : filesystem :=
  if older_than_retention now (fi_ModTime kv.2)
  then fs_del (Join dir (fi_Name kv.2)) fs
  else fs.

(** ** Concrete worlds for the examples *)

(** A cache in directory [cache] whose time source is the clock of the
    world. *)
Definition cache0 : diskCommittedContentIndexCache :=
  {| dirname := "cache"; timeNow := w_now;
     v1PerContentOverhead := 0; log := "kopia/content" |}.

(** A world with no directory at all, at time 100, where nothing fails. *)
Definition empty_world : world := World ∅ 100 [] [] [].

(** The same world with a script. *)
Definition scripted (script : list sched) : world :=
  World ∅ 100 script [] [].

(** A world that holds the given entries in directory [cache]. *)
Definition world_of (entries : list (string * file)) (now : Z)
    (script : list sched) (order : list nat) : world :=
  World {[ "cache" := list_to_map entries ]} now script order [].

(** Scripts for a cache directory that does not exist yet: the add makes
    seven system calls (stat, create, mkdir, create, write, close,
    rename).  In [race_script] another process publishes the index just
    before the rename, and the rename fails; in [fail_script] the rename
    fails and nobody published. *)
Definition race_script : list sched :=
  replicate 6 quiet
  ++ [Sched [EnvPublish (Path "cache" "abc.sndx") ["009"%byte]] (Some EBUSY)].

Definition fail_script : list sched :=
  replicate 6 quiet ++ [Sched [] (Some EBUSY)].

(** A cache directory that exists, where the file is created and written
    but its close fails; and the same with a failing write. *)
Definition close_fails_world : world :=
  World {[ "cache" := ∅ ]} 100 [quiet; quiet; Sched [] (Some EIO)] [] [].

Definition write_fails_world : world :=
  World {[ "cache" := ∅ ]} 100 [quiet; Sched [] (Some EIO)] [] [].

(** The same with a disk that is full after two bytes: the write fails
    when its first two bytes are in the file. *)
Definition short_write_world : world :=
  World {[ "cache" := ∅ ]} 100 [quiet; PartialSched [] (Some ENOSPC) 2] [] [].

(** The mapped open fails three times, then works. *)
Definition flaky_mmap_world : world :=
  world_of [("abc.sndx", File ["042"%byte] 0)] 100
           (replicate 3 (Sched [] (Some EACCES))) [].

(** The example of the specification: at time 2h the directory holds a
    file that is half an hour old, a file that is two hours old and not
    used, a file that is two hours old and used, and a stale temporary
    file. *)
Definition hour : Z := 3600 * 1000000000.

Definition three_files : list (string * file) :=
  [("young.sndx", File [] (2 * hour - hour / 2));
   ("old.sndx", File [] 0);
   ("kept.sndx", File [] 0);
   ("tmp7", File [] 0)].

Definition sweep_world : world := world_of three_files (2 * hour) [] [].

(** Two old unused files; the listing works, the first removal fails. *)
Definition failing_sweep_world : world :=
  world_of [("a.sndx", File [] 0); ("b.sndx", File [] 0)] (2 * hour)
           [quiet; Sched [] (Some EACCES)] [1%nat].

(** * Properties *)

(** ** Strings: suffixes and temporary names *)

Section string_facts.

Import GoStrings.

Lemma append_cons a s t : String a s +:+ t = String a (s +:+ t).
Proof. reflexivity. Qed.

Lemma length_append s t :
  String.length (s +:+ t) = (String.length s + String.length t)%nat.
Proof. induction s as [|a s IH]; [done|]. rewrite append_cons. simpl. by rewrite IH. Qed.

Lemma substring_all s : substring 0 (String.length s) s = s.
Proof. induction s as [|a s IH]; [done|]. simpl. by rewrite IH. Qed.

Lemma substring_drop s t :
  substring (String.length s) (String.length t) (s +:+ t) = t.
Proof.
  induction s as [|a s IH]; [apply substring_all|].
  by rewrite append_cons.
Qed.

Lemma substring_take s t : substring 0 (String.length s) (s +:+ t) = s.
Proof.
  induction s as [|a s IH]; [by destruct t|].
  rewrite append_cons. simpl. by rewrite IH.
Qed.

Lemma substring_split n s :
  (n <= String.length s)%nat ->
  substring 0 n s +:+ substring n (String.length s - n) s = s.
Proof.
  revert n. induction s as [|a s IH]; intros [|n] Hn; simpl in *;
    try done; try lia.
  - by rewrite substring_all.
  - rewrite append_cons. f_equal. apply IH. lia.
Qed.

Lemma HasSuffix_app s suffix : HasSuffix (s +:+ suffix) suffix = true.
Proof.
  unfold HasSuffix. rewrite length_append.
  replace (String.length s + String.length suffix - String.length suffix)%nat
    with (String.length s) by lia.
  rewrite substring_drop, String.eqb_refl, andb_true_r.
  apply Nat.leb_le. lia.
Qed.

Lemma TrimSuffix_app s suffix : TrimSuffix (s +:+ suffix) suffix = s.
Proof.
  unfold TrimSuffix. rewrite HasSuffix_app, length_append.
  replace (String.length s + String.length suffix - String.length suffix)%nat
    with (String.length s) by lia.
  apply substring_take.
Qed.

Lemma HasSuffix_split s suffix :
  HasSuffix s suffix = true -> s = TrimSuffix s suffix +:+ suffix.
Proof.
  intros H. unfold TrimSuffix. rewrite H.
  unfold HasSuffix in H. apply andb_true_iff in H as [Hlen Heq].
  apply Nat.leb_le in Hlen. apply String.eqb_eq in Heq.
  remember (String.length s - String.length suffix)%nat as n eqn:En.
  assert (String.length suffix = String.length s - n)%nat as El by lia.
  rewrite El in Heq. rewrite <- Heq.
  symmetry. apply substring_split. lia.
Qed.

(** Two names with the suffix and the same identifier are the same. *)
Lemma TrimSuffix_inj s1 s2 suffix :
  HasSuffix s1 suffix = true -> HasSuffix s2 suffix = true ->
  TrimSuffix s1 suffix = TrimSuffix s2 suffix -> s1 = s2.
Proof.
  intros H1%HasSuffix_split H2%HasSuffix_split Heq.
  rewrite H1, H2. by rewrite Heq.
Qed.

Lemma last_char_cons a s : s <> "" -> last_char (String a s) = last_char s.
Proof. by destruct s. Qed.

Lemma last_char_app s t : t <> "" -> last_char (s +:+ t) = last_char t.
Proof.
  intros Ht. induction s as [|a s IH]; [done|].
  rewrite append_cons, last_char_cons; [done|].
  destruct s; [done|by rewrite append_cons].
Qed.

Lemma pretty_N_go_last x s :
  s <> "" -> last_char (pretty_N_go x s) = last_char s.
Proof.
  revert s. induction (N.lt_wf_0 x) as [x _ IH]; intros s Hs.
  assert (x = 0 ∨ 0 < x)%N as [->|Hx] by lia.
  - by rewrite pretty_N_go_0.
  - rewrite pretty_N_go_step; [|done].
    rewrite IH; [by apply last_char_cons|by apply N.div_lt|done].
Qed.

Lemma pretty_N_char_digit x : is_digit (pretty_N_char x) = true.
Proof. unfold pretty_N_char. by repeat case_match. Qed.

Lemma pretty_N_last (n : N) :
  exists a, last_char (pretty n) = Some a /\ is_digit a = true.
Proof.
  unfold pretty, pretty_N. case_decide as Hn.
  - by exists "0"%char.
  - rewrite pretty_N_go_step; [|lia].
    rewrite pretty_N_go_last; [|done].
    eexists; split; [done|]. apply pretty_N_char_digit.
Qed.

Lemma pretty_N_nonempty (n : N) : pretty n <> "".
Proof. destruct (pretty_N_last n) as (a & H & _). by intros E; rewrite E in H. Qed.

(** A temporary name ends in a digit. *)
Lemma tmp_name_last pattern n :
  exists a, last_char (tmp_name pattern n) = Some a /\ is_digit a = true.
Proof.
  unfold tmp_name. rewrite last_char_app; [|apply pretty_N_nonempty].
  apply pretty_N_last.
Qed.

(** So it never carries the suffix of a committed index. *)
Lemma tmp_name_no_suffix pattern n :
  HasSuffix (tmp_name pattern n) simpleIndexSuffix = false.
Proof.
  destruct (HasSuffix _ _) eqn:H; [|done].
  apply HasSuffix_split in H.
  destruct (tmp_name_last pattern n) as (a & Hl & Hd).
  rewrite H, last_char_app in Hl; [|done].
  by simplify_eq/=.
Qed.

Lemma tmp_name_ne_index pattern n id :
  tmp_name pattern n <> id +:+ simpleIndexSuffix.
Proof.
  intros E. pose proof (tmp_name_no_suffix pattern n) as H.
  by rewrite E, HasSuffix_app in H.
Qed.

Lemma tmp_name_inj pattern : Inj (=) (=) (tmp_name pattern).
Proof. intros n1 n2 E. unfold tmp_name in E. by simplify_eq. Qed.

End string_facts.

(** ** The file system and the system calls *)

Section os_facts.

Lemma first_free_ge d pattern fuel n : (n <= first_free d pattern fuel n)%N.
Proof.
  revert n. induction fuel as [|k IH]; intros n; simpl; [lia|].
  destruct (d !! _); [|lia]. specialize (IH (n + 1)%N). lia.
Qed.

Lemma first_free_delete d pattern fuel n j :
  (j < n)%N ->
  first_free (delete (tmp_name pattern j) d) pattern fuel n
  = first_free d pattern fuel n.
Proof.
  revert n. induction fuel as [|k IH]; intros n Hj; simpl; [done|].
  rewrite lookup_delete_ne.
  - destruct (d !! _); [|done]. apply IH. lia.
  - intros E%tmp_name_inj. lia.
Qed.

Lemma first_free_fresh pattern fuel (d : gmap string file) n :
  (size d <= fuel)%nat ->
  d !! tmp_name pattern (first_free d pattern fuel n) = None.
Proof.
  revert d n. induction fuel as [|k IH]; intros d n Hsz; simpl.
  - assert (d = ∅) as -> by (apply map_size_empty_inv; lia).
    apply lookup_empty.
  - destruct (d !! tmp_name pattern n) as [f|] eqn:E; [|done].
    rewrite <- (first_free_delete d pattern k (n + 1)%N n) by lia.
    pose proof (first_free_ge (delete (tmp_name pattern n) d) pattern k
                  (n + 1)%N) as Hge.
    specialize (IH (delete (tmp_name pattern n) d) (n + 1)%N).
    rewrite lookup_delete_ne in IH.
    + apply IH. rewrite map_size_delete_Some by eauto. lia.
    + intros E'%tmp_name_inj. lia.
Qed.

(** [os.CreateTemp] never reuses a name. *)
Lemma fresh_tmp_fresh (d : gmap string file) pattern :
  d !! fresh_tmp d pattern = None.
Proof. by apply first_free_fresh. Qed.

Lemma fresh_tmp_no_suffix (d : gmap string file) pattern :
  GoStrings.HasSuffix (fresh_tmp d pattern) simpleIndexSuffix = false.
Proof. apply tmp_name_no_suffix. Qed.

Lemma fs_lookup_put_eq p f fs : fs_lookup (fs_put p f fs) p = Some f.
Proof.
  unfold fs_lookup, fs_put.
  destruct (fs !! p_dir p); rewrite lookup_insert_eq.
  - apply lookup_insert_eq.
  - apply lookup_singleton_eq.
Qed.

Lemma fs_lookup_put_ne p q f fs :
  p <> q -> fs_lookup (fs_put p f fs) q = fs_lookup fs q.
Proof.
  destruct p as [d b], q as [d' b']. intros Hne.
  unfold fs_lookup, fs_put; simpl.
  destruct (decide (d = d')) as [->|Hd].
  - assert (b <> b') by congruence.
    destruct (fs !! d') eqn:E; rewrite lookup_insert_eq.
    + by apply lookup_insert_ne.
    + by apply lookup_singleton_ne.
  - by destruct (fs !! d); rewrite lookup_insert_ne.
Qed.

Lemma fs_lookup_del_eq p fs : fs_lookup (fs_del p fs) p = None.
Proof.
  unfold fs_lookup, fs_del.
  destruct (fs !! p_dir p) eqn:E.
  - rewrite lookup_insert_eq. apply lookup_delete_eq.
  - by rewrite E.
Qed.

Lemma fs_lookup_del_ne p q fs :
  p <> q -> fs_lookup (fs_del p fs) q = fs_lookup fs q.
Proof.
  destruct p as [d b], q as [d' b']. intros Hne.
  unfold fs_lookup, fs_del; simpl.
  destruct (fs !! d) eqn:E; [|done].
  destruct (decide (d = d')) as [<-|Hd].
  - rewrite lookup_insert_eq, E. apply lookup_delete_ne. congruence.
  - by rewrite lookup_insert_ne.
Qed.

(** A system call is either made to fail by the script or served by the
    kernel; in both cases it is appended to the trace. *)
Lemma sys_inv c w r w' :
  sys c w = (r, w') ->
  exists w2,
    w' = GoOS.record (EvSys c (reply_errno r)) w2 /\
    match s_fault (next_sched w) with
    | Some e =>
        r = Failed e /\
        w2 = failed c (s_written (next_sched w)) (schedule w)
    | None => kernel c (schedule w) = (r, w2)
    end.
Proof.
  unfold sys. destruct (s_fault (next_sched w)) as [e|].
  - intros [= <- <-]. eauto.
  - destruct (kernel c (schedule w)) as [r' w2] eqn:K.
    intros [= <- <-]. eauto.
Qed.

Lemma schedule_frame w :
  w_trace (schedule w) = w_trace w /\
  w_script (schedule w) = tail (w_script w) /\
  w_maporder (schedule w) = w_maporder w.
Proof.
  unfold schedule.
  assert (forall l w0,
    w_trace (foldl env_step w0 l) = w_trace w0 /\
    w_script (foldl env_step w0 l) = w_script w0 /\
    w_maporder (foldl env_step w0 l) = w_maporder w0) as H.
  { induction l as [|a l IH]; intros w0; [done|].
    simpl. destruct (IH (env_step w0 a)) as (-> & -> & ->).
    by destruct a. }
  destruct (H (s_env (next_sched w)) (with_script (tail (w_script w)) w))
    as (-> & -> & ->).
  done.
Qed.

Lemma schedule_trace w : w_trace (schedule w) = w_trace w.
Proof. apply schedule_frame. Qed.

Lemma schedule_script w : w_script (schedule w) = tail (w_script w).
Proof. apply schedule_frame. Qed.

Lemma schedule_maporder w : w_maporder (schedule w) = w_maporder w.
Proof. apply schedule_frame. Qed.

Lemma kernel_frame c w :
  w_trace (kernel c w).2 = w_trace w /\
  w_script (kernel c w).2 = w_script w /\
  w_maporder (kernel c w).2 = w_maporder w /\
  w_now (kernel c w).2 = w_now w.
Proof. destruct c; simpl; repeat case_match; done. Qed.

(** A call that fails leaves the trace, the script, the order of maps and
    the clock alone; only a write that fails can have touched the disk,
    and then only its own file. *)
Lemma failed_frame c k w :
  w_trace (failed c k w) = w_trace w /\
  w_script (failed c k w) = w_script w /\
  w_maporder (failed c k w) = w_maporder w /\
  w_now (failed c k w) = w_now w.
Proof.
  destruct c; try done. unfold failed.
  destruct (take k data); [done|]. apply kernel_frame.
Qed.

Lemma failed_fs c k w :
  match c with
  | FWrite p data =>
      w_fs (failed c k w) = w_fs w \/
      exists f,
        fs_lookup (w_fs w) p = Some f /\
        w_fs (failed c k w)
        = fs_put p (File (f_data f ++ take k data) (w_now w)) (w_fs w)
  | _ => failed c k w = w
  end.
Proof.
  destruct c; try done. unfold failed.
  destruct (take k data) as [|b l] eqn:E; [by left|].
  simpl. destruct (fs_lookup (w_fs w) p) as [f|] eqn:Hf; [|by left].
  right. by exists f.
Qed.

Lemma fs_put_put p f g fs : fs_put p f (fs_put p g fs) = fs_put p f fs.
Proof.
  unfold fs_put. destruct (fs !! p_dir p) eqn:E; rewrite lookup_insert_eq.
  - by rewrite !insert_insert_eq.
  - by rewrite insert_insert_eq, insert_singleton_eq.
Qed.

Lemma fs_put_id p f fs : fs_lookup fs p = Some f -> fs_put p f fs = fs.
Proof.
  unfold fs_lookup, fs_put. destruct (fs !! p_dir p) as [d|] eqn:E; [|done].
  intros H. by rewrite (insert_id d), (insert_id fs).
Qed.

Lemma fs_put_mkdir dir b f (fs : filesystem) :
  fs !! dir = None ->
  fs_put (Path dir b) f (<[dir := ∅]> fs) = fs_put (Path dir b) f fs.
Proof.
  intros E. unfold fs_put; simpl. rewrite lookup_insert_eq, E.
  by rewrite insert_insert_eq, insert_empty.
Qed.

Lemma fs_put_dir p f fs : is_Some (fs_put p f fs !! p_dir p).
Proof. unfold fs_put. destruct (fs !! p_dir p); rewrite lookup_insert_eq; eauto. Qed.

(** Publishing a temporary file: once it is renamed, the temporary name is
    gone and only the destination was added. *)
Lemma fs_publish dir t b f g fs :
  fs_lookup fs (Path dir t) = None ->
  fs_put (Path dir b) f (fs_del (Path dir t) (fs_put (Path dir t) g fs))
  = fs_put (Path dir b) f fs.
Proof.
  unfold fs_lookup, fs_put, fs_del; simpl. intros Ht.
  destruct (fs !! dir) as [d|] eqn:E; rewrite !lookup_insert_eq.
  - rewrite !insert_insert_eq. do 2 f_equal.
    rewrite delete_insert_eq. by apply delete_id.
  - rewrite !insert_insert_eq. f_equal.
    by rewrite delete_singleton_eq, insert_empty.
Qed.

(** A world whose script is used up stays quiet. *)
Lemma schedule_quiet w : w_script w = [] -> schedule w = w.
Proof.
  destruct w as [fs now script order trace]; simpl. intros ->.
  reflexivity.
Qed.

Lemma next_sched_quiet w : w_script w = [] -> next_sched w = quiet.
Proof. unfold next_sched. by intros ->. Qed.

Lemma sys_quiet c w :
  w_script w = [] ->
  sys c w = ((kernel c w).1,
             GoOS.record (EvSys c (reply_errno (kernel c w).1)) (kernel c w).2).
Proof.
  intros Hq. unfold sys. rewrite next_sched_quiet, schedule_quiet by done.
  simpl. by destruct (kernel c w).
Qed.

End os_facts.

(** ** [newBlockCache] *)

Section block_facts.

Import block.
Context {Storage : Type}.

(** C6.  [newBlockCache] returns the no-op variant exactly when
    [MaxCacheSizeBytes] is zero or [CacheDirectory] is empty.  Otherwise it
    returns the disk variant built from the options, and what it does
    before it returns is, in this order: one call of [sweepDirectory] on
    that cache, then the launch of [sweepDirectoryPeriodically] as a
    goroutine.  The no-op variant sweeps nothing and launches nothing. *)
Theorem newBlockCache_selects_variant
    (st0 : Storage) (caching : CachingOptions) :
  let r := newBlockCache st0 caching in
  ((exists n, r.1 = null n) <->
     (MaxCacheSizeBytes caching = 0 \/ CacheDirectory caching = ""))
  /\ (forall n, r.1 = null n -> n = {| null_st := st0 |} /\ r.2 = [])
  /\ (forall c, r.1 = disk c ->
        r.2 = [call_sweepDirectory c; go_sweepDirectoryPeriodically c]
        /\ st c = st0
        /\ directory c = CacheDirectory caching
        /\ maxSizeBytes c = MaxCacheSizeBytes caching
        /\ hmacSecret c = HMACSecret caching
        /\ ch_closed (closed c) = false).
Proof.
  unfold newBlockCache.
  destruct (Z.eqb_spec (MaxCacheSizeBytes caching) 0) as [Hz|Hz];
    destruct (String.eqb_spec (CacheDirectory caching) "") as [Hd|Hd];
    simpl; (split; [split|split]);
    try (intros [n [=]]); try (intros n [=]); try (intros c [=]);
    subst; eauto 10; try tauto.
  all: intros [?|?]; congruence.
Qed.

Example newBlockCache_disabled :
  newBlockCache (Storage := unit) tt
    {| CacheDirectory := "/var/cache"; MaxCacheSizeBytes := 0;
       MaxListCacheDurationSec := 30; HMACSecret := [] |}
  = (null {| null_st := tt |}, []).
Proof. reflexivity. Qed.

Example newBlockCache_enabled :
  exists c,
    newBlockCache (Storage := unit) tt
      {| CacheDirectory := "/var/cache"; MaxCacheSizeBytes := 1000;
         MaxListCacheDurationSec := 30; HMACSecret := ["001"%byte] |}
    = (disk c, [call_sweepDirectory c; go_sweepDirectoryPeriodically c]) /\
    listCacheDuration c = 30 * GoTime.Second.
Proof. eexists. split; reflexivity. Qed.

End block_facts.

(** ** [hasIndexBlobID] *)

Section hasIndexBlobID_facts.

Implicit Types (c : diskCommittedContentIndexCache) (w : world).

Lemma os_Stat_eq p w :
  os_Stat p w =
  (os_error (match stat_outcome p w with Some e => Failed e | None => Done end),
   GoOS.record (EvSys (Stat p) (stat_outcome p w)) (schedule w)).
Proof.
  unfold os_Stat, bind, sys, stat_outcome, ret.
  destruct (s_fault (next_sched w)) as [e|]; [done|].
  simpl. by destruct (fs_lookup _ _).
Qed.

Lemma hasIndexBlobID_eq c id w :
  hasIndexBlobID c id w =
  (match stat_outcome (indexBlobPath c id) w with
   | None => (true, None)
   | Some ENOENT => (false, None)
   | Some e =>
       (false, Some (withMessage (PathError e) "error checking %v" [id]))
   end,
   GoOS.record (EvSys (Stat (indexBlobPath c id))
                      (stat_outcome (indexBlobPath c id) w))
               (schedule w)).
Proof.
  unfold hasIndexBlobID, bind. rewrite os_Stat_eq.
  destruct (stat_outcome _ _) as [[]|]; reflexivity.
Qed.

Lemma hasIndexBlobID_true c id w w' :
  hasIndexBlobID c id w = ((true, None), w') ->
  is_Some (fs_lookup (w_fs w') (indexBlobPath c id)) /\
  w_fs w' = w_fs (schedule w) /\
  w_trace w' = w_trace w ++ [EvSys (Stat (indexBlobPath c id)) None].
Proof.
  rewrite hasIndexBlobID_eq. unfold stat_outcome.
  destruct (s_fault (next_sched w)) as [[]|]; try discriminate.
  destruct (fs_lookup _ _) eqn:E; [|discriminate].
  intros [= <-]. simpl. split; [by rewrite E|]. split; [done|].
  by rewrite schedule_trace.
Qed.

End hasIndexBlobID_facts.

(** ** [writeTempFileAtomic] and [addContentToCache] without faults *)

Section quiet_facts.

Implicit Types (c : diskCommittedContentIndexCache) (w : world).

(** In a quiet world [writeTempFileAtomic] always succeeds: it leaves one
    new file, under a fresh temporary name, that holds the data. *)
Lemma writeTempFileAtomic_quiet dir data w :
  w_script w = [] ->
  let t := Path dir (fresh_tmp (default ∅ (w_fs w !! dir)) "tmp") in
  exists w',
    writeTempFileAtomic dir data w = ((t, None), w') /\
    w_script w' = [] /\ w_now w' = w_now w /\
    w_maporder w' = w_maporder w /\
    fs_lookup (w_fs w) t = None /\
    w_fs w' = fs_put t (File data (w_now w)) (w_fs w).
Proof.
  intros Hq t.
  assert (fs_lookup (w_fs w) t = None) as Hfresh.
  { unfold fs_lookup, t; simpl. destruct (w_fs w !! dir) as [d|]; [|done].
    apply fresh_tmp_fresh. }
  unfold writeTempFileAtomic, bind, os_CreateTemp, os_MkdirAll, file_Write,
    file_Close, bind, ret.
  rewrite (sys_quiet _ w) by done. simpl.
  destruct (w_fs w !! dir) as [d|] eqn:E; simpl.
  - rewrite sys_quiet by done. simpl. rewrite fs_lookup_put_eq. simpl.
    rewrite sys_quiet by done. simpl.
    eexists; split; [reflexivity|]. simpl.
    repeat split; try done. apply fs_put_put.
  - rewrite sys_quiet by done. simpl. rewrite E. simpl.
    rewrite sys_quiet by done. simpl. rewrite lookup_insert_eq. simpl.
    rewrite sys_quiet by done. simpl. rewrite fs_lookup_put_eq. simpl.
    rewrite sys_quiet by done. simpl.
    eexists; split; [reflexivity|]. simpl.
    repeat split; try done.
    rewrite fs_put_put. by apply fs_put_mkdir.
Qed.

Lemma hasIndexBlobID_quiet c id w :
  w_script w = [] ->
  exists w',
    hasIndexBlobID c id w
    = ((bool_decide (is_Some (fs_lookup (w_fs w) (indexBlobPath c id))),
        None), w') /\
    w_script w' = [] /\ w_now w' = w_now w /\
    w_maporder w' = w_maporder w /\ w_fs w' = w_fs w.
Proof.
  intros Hq. rewrite hasIndexBlobID_eq. unfold stat_outcome.
  rewrite next_sched_quiet, schedule_quiet by done. simpl.
  destruct (fs_lookup _ _) eqn:E; simpl; eauto 10.
Qed.

(** The first add of an identifier in a quiet world: it succeeds and the
    only change to the file system is the new file under its final name. *)
Lemma addContentToCache_quiet_fresh c id data w :
  w_script w = [] ->
  fs_lookup (w_fs w) (indexBlobPath c id) = None ->
  exists w',
    addContentToCache c id data w = (None, w') /\
    w_script w' = [] /\ w_now w' = w_now w /\
    w_maporder w' = w_maporder w /\
    w_fs w' = fs_put (indexBlobPath c id) (File data (w_now w)) (w_fs w).
Proof.
  intros Hq Habs. unfold addContentToCache, bind.
  destruct (hasIndexBlobID_quiet c id w Hq) as (w1 & -> & Hq1 & Hn1 & Ho1 & Hf1).
  rewrite Habs. rewrite bool_decide_eq_false_2 by (by intros [? ?]).
  destruct (writeTempFileAtomic_quiet (dirname c) data w1 Hq1)
    as (w2 & -> & Hq2 & Hn2 & Ho2 & Hfresh & Hf2).
  unfold os_Rename, bind, ret. rewrite sys_quiet by done. simpl.
  rewrite Hf2, fs_lookup_put_eq.
  destruct (fs_put_dir (Path (dirname c)
              (fresh_tmp (default ∅ (w_fs w1 !! dirname c)) "tmp"))
              (File data (w_now w1)) (w_fs w1)) as [d Hd].
  simpl in Hd. rewrite Hd. simpl.
  eexists; split; [reflexivity|]. simpl.
  repeat split; try congruence.
  unfold indexBlobPath, Join. rewrite fs_publish by done.
  by rewrite Hf1, Hn1.
Qed.

(** An add of an identifier that is already there, in a quiet world. *)
Lemma addContentToCache_quiet_present c id data w :
  w_script w = [] ->
  is_Some (fs_lookup (w_fs w) (indexBlobPath c id)) ->
  exists w',
    addContentToCache c id data w = (None, w') /\
    w_script w' = [] /\ w_now w' = w_now w /\
    w_maporder w' = w_maporder w /\ w_fs w' = w_fs w.
Proof.
  intros Hq Hpres. unfold addContentToCache, bind.
  destruct (hasIndexBlobID_quiet c id w Hq) as (w1 & -> & ?).
  rewrite bool_decide_eq_true_2 by done. eauto.
Qed.

End quiet_facts.

(** ** [addContentToCache] under faults and interference *)

Section add_facts.

Implicit Types (c : diskCommittedContentIndexCache) (w : world).

Lemma schedule_no_env w :
  s_env (next_sched w) = [] ->
  w_fs (schedule w) = w_fs w /\ w_now (schedule w) = w_now w.
Proof. unfold schedule. by intros ->. Qed.

Lemma os_Rename_ok oldpath newpath w w' :
  os_Rename oldpath newpath w = (None, w') ->
  is_Some (fs_lookup (w_fs w') newpath).
Proof.
  unfold os_Rename, bind, ret.
  destruct (sys _ w) as [r w1] eqn:S. intros [= Hr <-].
  apply sys_inv in S as (w2 & -> & S).
  destruct (s_fault (next_sched w)) as [e|].
  { destruct S as [-> _]. discriminate. }
  simpl in S.
  destruct (fs_lookup (w_fs (schedule w)) oldpath) as [f|];
    [destruct (w_fs (schedule w) !! p_dir newpath)|];
    simplify_eq/=.
  rewrite fs_lookup_put_eq. eauto.
Qed.

(** When [addContentToCache] returns nil, the file is there. *)
Lemma addContentToCache_success c id data w w' :
  addContentToCache c id data w = (None, w') ->
  is_Some (fs_lookup (w_fs w') (indexBlobPath c id)).
Proof.
  unfold addContentToCache, bind.
  destruct (hasIndexBlobID c id w) as [[b e] w1] eqn:H1.
  destruct e as [e|]; [discriminate|].
  destruct b.
  { intros [= <-]. by apply hasIndexBlobID_true in H1 as [? _]. }
  destruct (writeTempFileAtomic _ _ w1) as [[t e2] w2].
  destruct e2 as [e2|]; [discriminate|].
  destruct (os_Rename _ _ w2) as [e3 w3] eqn:R.
  destruct e3 as [e3|].
  - destruct (hasIndexBlobID c id w3) as [[b' e'] w4] eqn:H4.
    destruct e' as [e'|]; [discriminate|].
    destruct b'; [|discriminate].
    intros [= <-]. by apply hasIndexBlobID_true in H4 as [? _].
  - intros [= <-]. by apply os_Rename_ok in R.
Qed.

(** C5.  [hasIndexBlobID] makes one [os.Stat] of the path of the
    identifier and changes nothing on disk.  It returns [(true, nil)] when
    the stat finds the file, [(false, nil)] when the stat reports
    not-found, and [false] with the stat error wrapped ("error checking
    <id>") for every other stat failure.  Right after an
    [addContentToCache] of the identifier that returned nil, with nothing
    happening in between, it returns [(true, nil)]. *)
Theorem hasIndexBlobID_stat c id :
  (forall w,
     let p := indexBlobPath c id in
     let r := hasIndexBlobID c id w in
     w_fs r.2 = w_fs (schedule w) /\
     w_trace r.2 = (w_trace w ++ [EvSys (Stat p) (stat_outcome p w)])%list /\
     r.1 = match stat_outcome p w with
           | None => (true, None)
           | Some ENOENT => (false, None)
           | Some e =>
               (false,
                Some (withMessage (PathError e) "error checking %v" [id]))
           end /\
     (s_fault (next_sched w) = None ->
      r.1 = (bool_decide (is_Some (fs_lookup (w_fs (schedule w)) p)), None)))
  /\
  (forall data w w',
     addContentToCache c id data w = (None, w') ->
     next_sched w' = quiet ->
     (hasIndexBlobID c id w').1 = (true, None)).
Proof.
  split.
  - intros w p r. unfold r. rewrite hasIndexBlobID_eq. simpl.
    rewrite schedule_trace. repeat split.
    unfold stat_outcome, p. intros ->.
    by destruct (fs_lookup _ _).
  - intros data w w' Hadd Hq.
    apply addContentToCache_success in Hadd as [f Hf].
    rewrite hasIndexBlobID_eq. unfold stat_outcome. rewrite Hq. simpl.
    destruct (schedule_no_env w') as [-> _]; [by rewrite Hq|].
    by rewrite Hf.
Qed.

Lemma hasIndexBlobID_stat_witness :
  (hasIndexBlobID cache0 "abc"
     (addContentToCache cache0 "abc" ["001"%byte] empty_world).2).1
  = (true, None).
Proof.
  apply (proj2 (hasIndexBlobID_stat cache0 "abc") ["001"%byte] empty_world).
  - vm_compute. reflexivity.
  - vm_compute. reflexivity.
Defined.

(** C1.  When [hasIndexBlobID] already returns true, [addContentToCache]
    returns nil and does nothing but that one existence check: no file is
    created, written or renamed.  Calling it twice for the same identifier
    in a world without faults and interference, both calls return nil,
    the second call changes nothing, and the two calls together add to the
    disk exactly one file, under the final name, holding the bytes of the
    first call (or nothing at all when the file was there before). *)
Theorem addContentToCache_idempotent c id :
  (forall data w w1,
     hasIndexBlobID c id w = ((true, None), w1) ->
     addContentToCache c id data w = (None, w1) /\
     w_fs w1 = w_fs (schedule w) /\
     w_trace w1
     = (w_trace w ++ [EvSys (Stat (indexBlobPath c id)) None])%list)
  /\
  (forall data1 data2 w,
     w_script w = [] ->
     let r1 := addContentToCache c id data1 w in
     let r2 := addContentToCache c id data2 r1.2 in
     r1.1 = None /\ r2.1 = None /\
     w_fs r2.2 = w_fs r1.2 /\
     w_fs r1.2 =
       match fs_lookup (w_fs w) (indexBlobPath c id) with
       | Some _ => w_fs w
       | None =>
           fs_put (indexBlobPath c id) (File data1 (w_now w)) (w_fs w)
       end).
Proof.
  split.
  - intros data w w1 H. split.
    + unfold addContentToCache, bind. by rewrite H.
    + by apply hasIndexBlobID_true in H as (_ & ? & ?).
  - intros data1 data2 w Hq r1 r2. unfold r2, r1.
    destruct (fs_lookup (w_fs w) (indexBlobPath c id)) as [f|] eqn:E.
    + destruct (addContentToCache_quiet_present c id data1 w Hq)
        as (w1 & -> & Hq1 & _ & _ & Hf1); [eauto|]. simpl.
      destruct (addContentToCache_quiet_present c id data2 w1 Hq1)
        as (w2 & -> & _ & _ & _ & Hf2); [rewrite Hf1; eauto|]. simpl.
      by rewrite Hf2.
    + destruct (addContentToCache_quiet_fresh c id data1 w Hq E)
        as (w1 & -> & Hq1 & _ & _ & Hf1). simpl.
      destruct (addContentToCache_quiet_present c id data2 w1 Hq1)
        as (w2 & -> & _ & _ & _ & Hf2).
      { rewrite Hf1, fs_lookup_put_eq. eauto. }
      simpl. by rewrite Hf2.
Qed.

Lemma addContentToCache_idempotent_witness :
  let r1 := addContentToCache cache0 "abc" ["001"%byte] empty_world in
  let r2 := addContentToCache cache0 "abc" ["002"%byte] r1.2 in
  r1.1 = None /\ r2.1 = None /\
  w_fs r2.2 = {[ "cache" := {[ "abc.sndx" := File ["001"%byte] 100 ]} ]}.
Proof.
  destruct (proj2 (addContentToCache_idempotent cache0 "abc")
              ["001"%byte] ["002"%byte] empty_world eq_refl)
    as (H1 & H2 & H3 & H4).
  split; [exact H1|]. split; [exact H2|].
  rewrite H3, H4. vm_compute. reflexivity.
Defined.

(** C2.  Suppose the first existence check says "absent", the temporary
    file is written, and the rename onto the destination fails.  Then
    [addContentToCache] checks the existence of the destination once more
    and ends there: it returns nil when that check says the destination
    exists, and the error "unsuccessful index write of content <id>",
    which names the identifier, when it says the destination does not
    exist.  (A failure of the second check itself is returned as it is.) *)
Theorem addContentToCache_rename_failure c id data w w1 tmpFile w2 e w3 :
  hasIndexBlobID c id w = ((false, None), w1) ->
  writeTempFileAtomic (dirname c) data w1 = ((tmpFile, None), w2) ->
  os_Rename tmpFile (indexBlobPath c id) w2 = (Some e, w3) ->
  let recheck := hasIndexBlobID c id w3 in
  let r := addContentToCache c id data w in
  r.2 = recheck.2 /\
  (recheck.1 = (true, None) -> r.1 = None) /\
  (recheck.1 = (false, None) ->
   r.1 = Some (fundamental "unsuccessful index write of content %q" [id])) /\
  (forall b err, recheck.1 = (b, Some err) -> r.1 = Some err) /\
  (s_fault (next_sched w3) = None ->
   r.1 = if bool_decide
              (is_Some (fs_lookup (w_fs (schedule w3)) (indexBlobPath c id)))
         then None
         else Some (fundamental "unsuccessful index write of content %q"
                                [id])).
Proof.
  intros H1 H2 H3 recheck r. unfold r, recheck.
  unfold addContentToCache at 1 2 3 4 5, bind. rewrite H1, H2, H3.
  destruct (hasIndexBlobID c id w3) as [[b err] w4] eqn:H4. simpl.
  split; [by destruct err, b|].
  split; [by intros [= -> ->]|].
  split; [by intros [= -> ->]|].
  split; [by intros b' err' [= -> ->]|].
  intros Hnf. rewrite hasIndexBlobID_eq in H4. unfold stat_outcome in H4.
  rewrite Hnf in H4.
  destruct (fs_lookup _ _); by simplify_eq/=.
Qed.

Lemma addContentToCache_rename_failure_witness :
  (addContentToCache cache0 "abc" ["001"%byte] (scripted race_script)).1
  = None /\
  (addContentToCache cache0 "abc" ["001"%byte] (scripted fail_script)).1
  = Some (fundamental "unsuccessful index write of content %q" ["abc"]).
Proof.
  split.
  - set (w := scripted race_script).
    set (w1 := (hasIndexBlobID cache0 "abc" w).2).
    set (r2 := writeTempFileAtomic "cache" ["001"%byte] w1).
    set (r3 := os_Rename r2.1.1 (indexBlobPath cache0 "abc") r2.2).
    refine (proj1 (proj2 (addContentToCache_rename_failure cache0 "abc"
              ["001"%byte] w w1 r2.1.1 r2.2 (PathError EBUSY) r3.2 _ _ _)) _);
      vm_compute; reflexivity.
  - set (w := scripted fail_script).
    set (w1 := (hasIndexBlobID cache0 "abc" w).2).
    set (r2 := writeTempFileAtomic "cache" ["001"%byte] w1).
    set (r3 := os_Rename r2.1.1 (indexBlobPath cache0 "abc") r2.2).
    refine (proj1 (proj2 (proj2 (addContentToCache_rename_failure cache0
              "abc" ["001"%byte] w w1 r2.1.1 r2.2 (PathError EBUSY) r3.2
              _ _ _))) _);
      vm_compute; reflexivity.
Defined.

End add_facts.

(** ** [mmapOpenWithRetry] *)

Section mmap_facts.

Implicit Types (c : diskCommittedContentIndexCache) (w : world).

Lemma sys_trace call w :
  w_trace (sys call w).2
  = (w_trace w ++ [EvSys call (reply_errno (sys call w).1)])%list.
Proof.
  destruct (sys call w) as [r w'] eqn:S.
  apply sys_inv in S as (w2 & -> & S). simpl.
  assert (w_trace w2 = w_trace w) as ->; [|done].
  destruct (s_fault (next_sched w)).
  - destruct S as [_ ->].
    destruct (failed_frame call (s_written (next_sched w)) (schedule w))
      as (-> & _).
    apply schedule_trace.
  - pose proof (kernel_frame call (schedule w)) as (Ht & _).
    rewrite S in Ht. simpl in Ht. by rewrite Ht, schedule_trace.
Qed.

Lemma wrap64_small z : - 2 ^ 63 <= z < 2 ^ 63 -> GoTime.wrap64 z = z.
Proof. intros H. unfold GoTime.wrap64. rewrite Z.mod_small; lia. Qed.


(** One turn of the loop. *)
Lemma mmapOpenRetryLoop_step p k retryCount nextDelay e w :
  retryCount < maxRetries ->
  mmapOpenRetryLoop p (S k) retryCount nextDelay (Err e) w
  = let w1 := (time_Sleep nextDelay
                 (log_Debugf "retry #%v unable to mmap.Open(): %v"
                    [ArgInt (retryCount + 1); ArgErr (Some e)] w).2).2 in
    mmapOpenRetryLoop p k (retryCount + 1) (GoTime.wrap64 (nextDelay * 2))
      (mmap_Open p w1).1 (mmap_Open p w1).2.
Proof.
  intros H%Z.ltb_lt. simpl. rewrite H. unfold bind. simpl.
  by destruct (mmap_Open p _).
Qed.


(** [openIndex] hands the error of [mmapOpenWithRetry] on as it is, and
    does not parse anything then. *)
Lemma openIndex_mmap_error {packIndex : Type}
    (openPackIndex : option (list byte) -> Z -> option packIndex * goerror)
    c id w e :
  (mmapOpenWithRetry c (indexBlobPath c id) w).1.2 = Some e ->
  openIndex openPackIndex c id w
  = ((None, Some e), (mmapOpenWithRetry c (indexBlobPath c id) w).2).
Proof.
  unfold openIndex, bind, ret.
  destruct (mmapOpenWithRetry c (indexBlobPath c id) w) as [[f err] w1].
  cbn. by intros ->.
Qed.

(** The open fails on the first three attempts and succeeds on the
    fourth: the bytes are returned, after sleeps of 10, 20 and 40 ms. *)
Example mmapOpenWithRetry_fourth_attempt :
  let res := mmapOpenWithRetry cache0 (indexBlobPath cache0 "abc")
               flaky_mmap_world in
  res.1 = (Some ["042"%byte], None) /\
  sleeps (w_trace res.2) = [10000000; 20000000; 40000000] /\
  length (mmap_attempts (w_trace res.2)) = 4%nat.
Proof. vm_compute. repeat split; reflexivity. Qed.

(** The file is never there: nine opens, eight sleeps, 2550 ms. *)
Example mmapOpenWithRetry_exhausted :
  let res := mmapOpenWithRetry cache0 (indexBlobPath cache0 "abc")
               empty_world in
  res.1 = (None, Some (withMessage (PathError ENOENT) "mmap() error" [])) /\
  length (mmap_attempts (w_trace res.2)) = 9%nat /\
  total (sleeps (w_trace res.2)) = 2550 * GoTime.Millisecond.
Proof. vm_compute. repeat split; reflexivity. Qed.

End mmap_facts.

(** ** [writeTempFileAtomic] under faults *)

Section writeTemp_facts.

Implicit Types (w : world).

Ltac sys_steps :=
  repeat (cbn -[sys];
          match goal with
          | |- context [sys ?c ?w] =>
              let Ht := fresh "Ht" in
              pose proof (sys_trace c w) as Ht;
              destruct (sys c w) as [[[]| | | |] ?];
              cbn [fst snd reply_errno] in Ht
          end).

Ltac trace_chain :=
  repeat match goal with
         | H : w_trace _ = _ |- _ => rewrite H; clear H
         end;
  rewrite <- ?app_assoc.

(** The one-shot retry: the temporary file is created a second time, after
    one [MkdirAll], exactly when the first creation reported that the
    directory does not exist; otherwise it is created once and no
    directory is made. *)
Lemma writeTempFileAtomic_retry dir data w :
  let first := (os_CreateTemp dir "tmp" w).1 in
  let res := writeTempFileAtomic dir data w in
  exists new,
    w_trace res.2 = (w_trace w ++ new)%list /\
    filter is_create (calls new)
    = (if IsNotExist (err_of first)
       then [CreateTemp dir "tmp"; CreateTemp dir "tmp"]
       else [CreateTemp dir "tmp"]) /\
    filter is_mkdir (calls new)
    = (if IsNotExist (err_of first) then [MkdirAll dir] else []).
Proof.
  unfold writeTempFileAtomic, os_CreateTemp, os_MkdirAll, file_Write,
    file_Close, bind, ret.
  sys_steps; cbn; trace_chain; (eexists; split; [reflexivity|]); done.
Qed.

(** The errors [writeTempFileAtomic] can return: a wrapped creation
    error, a wrapped write error, or the bare "can't close tmp file". *)
Lemma writeTempFileAtomic_errors dir data w :
  match (writeTempFileAtomic dir data w).1 with
  | (_, None) => True
  | (p, Some err) =>
      p = no_path /\
      ((exists e, err = withMessage (PathError e) "can't create tmp file" [])
       \/ (exists e,
             err = withMessage (PathError e) "can't write to temp file" [])
       \/ err = fundamental "can't close tmp file" [])
  end.
Proof.
  unfold writeTempFileAtomic, os_CreateTemp, os_MkdirAll, file_Write,
    file_Close, bind, ret.
  sys_steps; cbn; eauto 6.
Qed.

(** C8, at the failing input.  The directory exists, the temporary file
    is created and written, and its close fails with EIO: the error that
    [writeTempFileAtomic] returns is the new error "can't close tmp
    file", which does not wrap the error of the close (its cause is
    itself), whereas a failing write is returned wrapped, with the write
    error as its cause. *)
Theorem writeTempFileAtomic_close_error_not_wrapped :
  let res := writeTempFileAtomic "cache" ["001"%byte] close_fails_world in
  let res' := writeTempFileAtomic "cache" ["001"%byte] write_fails_world in
  res.1 = (no_path, Some (fundamental "can't close tmp file" [])) /\
  last (w_trace res.2) = Some (EvSys (FClose (Path "cache" "tmp0")) (Some EIO)) /\
  (Cause <$> res.1.2) <> Some (PathError EIO) /\
  res'.1 = (no_path,
            Some (withMessage (PathError EIO) "can't write to temp file" [])) /\
  (Cause <$> res'.1.2) = Some (PathError EIO).
Proof. vm_compute. repeat split; discriminate. Qed.

End writeTemp_facts.

(** ** [expireUnused]: the candidates *)

Section candidates_facts.

Import GoStrings.

(** Whatever the seeds, [range] visits every entry of the map once. *)
Lemma shuffle_perm {A} (seeds : list nat) (l : list A) :
  shuffle seeds l ≡ₚ l.
Proof.
  revert l. induction seeds as [|k seeds IH]; intros l; simpl; [done|].
  destruct (l !! _) as [x|] eqn:E; [|done].
  rewrite IH. symmetry. by apply delete_Permutation.
Qed.

(** And every order is the order of some seeds. *)
Lemma shuffle_complete {A} (l l' : list A) :
  l ≡ₚ l' -> exists seeds, shuffle seeds l = l'.
Proof.
  revert l. induction l' as [|x l' IH]; intros l Hp.
  - exists []. by apply Permutation_nil_r in Hp.
  - assert (x ∈ l) as Hin by (rewrite Hp; by left).
    apply list_elem_of_lookup in Hin as [i Hi].
    pose proof (lookup_lt_Some _ _ _ Hi) as Hlt.
    destruct (IH (delete i l)) as [seeds Hs].
    { apply (Permutation_cons_inv (a := x)).
      by rewrite <- delete_Permutation. }
    exists (i :: seeds). simpl.
    rewrite Nat.mod_small by done. by rewrite Hi, Hs.
Qed.

Lemma subtract_lookup (remaining : gmap string FileInfo) used k :
  subtract remaining used !! k
  = if decide (k ∈ used) then None else remaining !! k.
Proof.
  unfold subtract. revert remaining.
  induction used as [|u used IH]; intros remaining; simpl.
  - destruct (decide (k ∈ [])) as [H|H]; [by apply elem_of_nil in H|done].
  - rewrite IH.
    destruct (decide (k ∈ used)) as [Hin|Hnin],
             (decide (k ∈ u :: used)) as [Hin'|Hnin']; try done.
    + exfalso. apply Hnin'. by right.
    + apply elem_of_cons in Hin' as [->|?]; [|done].
      apply lookup_delete_eq.
    + apply lookup_delete_ne. intros ->. apply Hnin'. by left.
Qed.

Lemma collect_from_inv entries : forall acc k ent,
  foldl collect_step acc entries !! k = Some ent ->
  acc !! k = Some ent \/
  (ent ∈ entries /\ HasSuffix (fi_Name ent) simpleIndexSuffix = true /\
   TrimSuffix (fi_Name ent) simpleIndexSuffix = k).
Proof.
  induction entries as [|e entries IH]; intros acc k ent H; simpl in H;
    [by left|].
  apply IH in H as [H|(? & ? & ?)].
  - unfold collect_step in H.
    destruct (HasSuffix (fi_Name e) simpleIndexSuffix) eqn:Hs; [|by left].
    destruct (decide (TrimSuffix (fi_Name e) simpleIndexSuffix = k))
      as [<-|Hne].
    + rewrite lookup_insert_eq in H. simplify_eq.
      right. split; [by left|done].
    + rewrite lookup_insert_ne in H by done. by left.
  - right. split; [by right|done].
Qed.

Lemma collect_from_keeps entries : forall acc k,
  is_Some (acc !! k) -> is_Some (foldl collect_step acc entries !! k).
Proof.
  induction entries as [|e entries IH]; intros acc k H; simpl; [done|].
  apply IH. unfold collect_step. destruct (HasSuffix _ _); [|done].
  destruct (decide (TrimSuffix (fi_Name e) simpleIndexSuffix = k)) as [<-|].
  - rewrite lookup_insert_eq. eauto.
  - by rewrite lookup_insert_ne.
Qed.

Lemma collect_from_is_Some entries : forall acc ent,
  ent ∈ entries -> HasSuffix (fi_Name ent) simpleIndexSuffix = true ->
  is_Some (foldl collect_step acc entries
             !! TrimSuffix (fi_Name ent) simpleIndexSuffix).
Proof.
  induction entries as [|e entries IH]; intros acc ent Hin Hs.
  - by apply elem_of_nil in Hin.
  - simpl. apply elem_of_cons in Hin as [->|Hin]; [|by apply IH].
    apply collect_from_keeps. unfold collect_step. rewrite Hs.
    rewrite lookup_insert_eq. eauto.
Qed.

Lemma collect_eq entries : collect entries = foldl collect_step ∅ entries.
Proof. reflexivity. Qed.

(** An identifier in [remaining] comes from an entry with the suffix. *)
Lemma collect_lookup_inv entries k ent :
  collect entries !! k = Some ent ->
  ent ∈ entries /\ HasSuffix (fi_Name ent) simpleIndexSuffix = true /\
  TrimSuffix (fi_Name ent) simpleIndexSuffix = k.
Proof.
  rewrite collect_eq. intros [H|H]%collect_from_inv; [|done].
  by rewrite lookup_empty in H.
Qed.

(** Every entry with the suffix is in [remaining], if names are unique. *)
Lemma collect_lookup entries ent :
  (forall e1 e2, e1 ∈ entries -> e2 ∈ entries ->
                 fi_Name e1 = fi_Name e2 -> e1 = e2) ->
  ent ∈ entries -> HasSuffix (fi_Name ent) simpleIndexSuffix = true ->
  collect entries !! TrimSuffix (fi_Name ent) simpleIndexSuffix = Some ent.
Proof.
  intros Huniq Hin Hs.
  destruct (collect_from_is_Some entries ∅ ent Hin Hs) as [ent' H].
  rewrite collect_eq, H. f_equal.
  apply collect_lookup_inv in H as (Hin' & Hs' & Ht).
  apply Huniq; [done..|]. by apply (TrimSuffix_inj _ _ simpleIndexSuffix).
Qed.

(** The entries [ioutil.ReadDir] lists for a directory. *)
Lemma listing_elem (d : gmap string file) ent :
  ent ∈ (fun nf => stat_of nf.1 nf.2) <$> map_to_list d <->
  exists f, d !! fi_Name ent = Some f /\ ent = stat_of (fi_Name ent) f.
Proof.
  rewrite list_elem_of_fmap. split.
  - intros ([n f] & -> & H%elem_of_map_to_list). simpl. eauto.
  - intros (f & H & ->). exists (fi_Name ent, f).
    split; [done|]. by apply elem_of_map_to_list.
Qed.

Lemma listing_unique (d : gmap string file) e1 e2 :
  e1 ∈ (fun nf => stat_of nf.1 nf.2) <$> map_to_list d ->
  e2 ∈ (fun nf => stat_of nf.1 nf.2) <$> map_to_list d ->
  fi_Name e1 = fi_Name e2 -> e1 = e2.
Proof.
  intros (f1 & H1 & E1)%listing_elem (f2 & H2 & E2)%listing_elem Hn.
  rewrite E1, E2. rewrite Hn in H1 |- *. by simplify_eq.
Qed.

(** Saturation of [Sub] does not change the outcome of the test. *)
Lemma retention_test now mtime :
  (GoTime.Sub now mtime >? unusedCommittedContentIndexCleanupTime)
  = older_than_retention now mtime.
Proof.
  unfold GoTime.Sub, older_than_retention,
    unusedCommittedContentIndexCleanupTime, GoTime.Hour, GoTime.Second,
    GoTime.maxDuration, GoTime.minDuration.
  change (2 ^ 63) with 9223372036854775808.
  apply Bool.eq_true_iff_eq. rewrite !Z.gtb_ltb, !Z.ltb_lt.
  repeat case_match;
    repeat match goal with
           | H : (_ <? _) = true |- _ => apply Z.ltb_lt in H
           | H : (_ <? _) = false |- _ => apply Z.ltb_ge in H
           end; lia.
Qed.

End candidates_facts.

(** ** [expireUnused]: the sweep, whatever fails *)

Section sweep_trace_facts.

Implicit Types (c : diskCommittedContentIndexCache) (w : world).

Lemma failures_app l1 l2 :
  failures (l1 ++ l2) = (failures l1 ++ failures l2)%list.
Proof. apply omap_app. Qed.

Lemma removals_app t1 t2 :
  removals (t1 ++ t2) = (removals t1 ++ removals t2)%list.
Proof. apply omap_app. Qed.

Lemma logged_errors_app t1 t2 :
  logged_errors (t1 ++ t2) = (logged_errors t1 ++ logged_errors t2)%list.
Proof. apply omap_app. Qed.

Lemma removing_app t1 t2 :
  removing (t1 ++ t2) = (removing t1 ++ removing t2)%list.
Proof. apply omap_app. Qed.

Lemma decisions_app t1 t2 :
  decisions (t1 ++ t2) = (decisions t1 ++ decisions t2)%list.
Proof. apply omap_app. Qed.

(** One turn of the sweep: one decision is logged; if a removal is made
    it is the removal of that entry, and if it fails the error is logged. *)
Lemma expireOne_trace c rem w :
  exists new,
    w_trace (expireOne c rem w).2 = (w_trace w ++ new)%list /\
    decisions new = [fi_Name rem] /\
    logged_errors new = failures (removals new) /\
    (fun pr => p_base pr.1) <$> removals new = removing new /\
    Forall (fun pr => pr.1 = Join (dirname c) (fi_Name rem)) (removals new).
Proof.
  unfold expireOne, call_timeNow, log_Debugf, log_Errorf, os_Remove, bind,
    ret.
  destruct (_ >? _).
  - pose proof (sys_trace (Remove (Join (dirname c) (fi_Name rem)))
        (GoOS.record (EvLog LDebug "removing unused %v %v"
           [ArgStr (fi_Name rem); ArgTime (fi_ModTime rem)]) w)) as Ht.
    destruct (sys _ _) as [[e| | | |] w2]; cbn [fst snd reply_errno] in Ht;
      cbn; rewrite ?Ht; cbn; rewrite <- ?app_assoc;
      (eexists; split; [reflexivity|]); cbn; repeat split;
      repeat constructor.
  - cbn. eexists; split; [reflexivity|]. cbn. repeat split; constructor.
Qed.

(** The whole third loop: every entry is visited, in the order of the
    iteration; a failing removal stops nothing. *)
Lemma for_each_expire_trace c (l : list (string * FileInfo)) : forall w,
  exists new,
    w_trace (for_each l (fun kv => expireOne c kv.2) w).2
    = (w_trace w ++ new)%list /\
    decisions new = (fun kv => fi_Name kv.2) <$> l /\
    logged_errors new = failures (removals new) /\
    (fun pr => p_base pr.1) <$> removals new = removing new /\
    Forall (fun pr => exists kv, kv ∈ l /\
                      pr.1 = Join (dirname c) (fi_Name kv.2))
           (removals new).
Proof.
  induction l as [|kv l IH]; intros w.
  - exists []. cbn. rewrite app_nil_r. repeat split. constructor.
  - cbn [for_each]. unfold bind.
    destruct (expireOne_trace c kv.2 w) as (n1 & Ht1 & Hd1 & He1 & Hg1 & Hr1).
    destruct (expireOne c kv.2 w) as [[] w1]. cbn [snd] in Ht1.
    destruct (IH w1) as (n2 & Ht2 & Hd2 & He2 & Hg2 & Hr2).
    exists (n1 ++ n2)%list. split; [by rewrite Ht2, Ht1, app_assoc|].
    rewrite decisions_app, logged_errors_app, removals_app, failures_app,
      removing_app, fmap_app.
    rewrite Hd1, Hd2, He1, He2, Hg1, Hg2. repeat split.
    apply Forall_app. split.
    + eapply Forall_impl; [exact Hr1|]. intros pr ->. exists kv.
      split; [by left|done].
    + eapply Forall_impl; [exact Hr2|]. intros pr (kv' & ? & ?).
      exists kv'. split; [by right|done].
Qed.

(** [expireUnused], step by step. *)
Lemma expireUnused_eq c used w :
  expireUnused c used w =
  let listing :=
    ioutil_ReadDir (dirname c)
      (log_Debugf "expireUnused (except %v)" [ArgIDs used] w).2 in
  match listing.1.2 with
  | Some _ => (Wrap listing.1.2 "can't list cache", listing.2)
  | None =>
      (None,
       (for_each
          (shuffle (w_maporder listing.2)
             (map_to_list (subtract (collect listing.1.1) used)))
          (fun kv => expireOne c kv.2) listing.2).2)
  end.
Proof.
  unfold expireUnused, bind, range, ret, log_Debugf.
  cbv beta iota zeta. cbn [snd].
  destruct (ioutil_ReadDir _ _) as [[entries [e|]] w1]; cbn [fst snd];
    [done|].
  by destruct (for_each _ _ w1) as [[] w2].
Qed.

(** C9.  Once the listing of the directory has succeeded, [expireUnused]
    returns nil whatever the removals do.  Every candidate (an entry with
    the suffix whose identifier is not used) is visited, each exactly
    once: the decisions logged are those for the candidates, in the order
    of the iteration, also after a removal has failed, and every
    "removing unused" decision has its [os.Remove].  The errors logged
    are exactly the errors of the failed removals, in order, and no error
    reaches the caller. *)
Theorem expireUnused_remove_failures c used w entries w1 :
  ioutil_ReadDir (dirname c)
    (log_Debugf "expireUnused (except %v)" [ArgIDs used] w).2
  = ((entries, None), w1) ->
  let res := expireUnused c used w in
  let remaining := subtract (collect entries) used in
  let visits := shuffle (w_maporder w1) (map_to_list remaining) in
  res.1 = None /\
  visits ≡ₚ map_to_list remaining /\
  exists new,
    w_trace res.2 = (w_trace w1 ++ new)%list /\
    decisions new = (fun kv => fi_Name kv.2) <$> visits /\
    logged_errors new = failures (removals new) /\
    (fun pr => p_base pr.1) <$> removals new = removing new /\
    Forall (fun pr => exists kv, kv ∈ visits /\
                      pr.1 = Join (dirname c) (fi_Name kv.2))
           (removals new).
Proof.
  intros Hread res remaining visits.
  split; [|split; [apply shuffle_perm|]].
  - unfold res, expireUnused, bind. cbn [log_Debugf snd] in Hread |- *.
    rewrite Hread. unfold range.
    by destruct (for_each _ _ w1).
  - destruct (for_each_expire_trace c visits w1) as (new & Ht & H).
    exists new. split; [|exact H].
    unfold res, expireUnused, bind. cbn [log_Debugf snd] in Hread |- *.
    rewrite Hread. unfold range. fold remaining visits.
    by destruct (for_each _ _ w1).
Qed.

Lemma expireUnused_remove_failures_witness :
  let res := expireUnused cache0 [] failing_sweep_world in
  res.1 = None /\
  logged_errors (w_trace res.2) = [Some (PathError EACCES)] /\
  length (removals (w_trace res.2)) = 2%nat /\
  length (decisions (w_trace res.2)) = 2%nat.
Proof.
  set (listing := ioutil_ReadDir "cache"
         (log_Debugf "expireUnused (except %v)" [ArgIDs []]
            failing_sweep_world).2).
  destruct (expireUnused_remove_failures cache0 [] failing_sweep_world
              listing.1.1 listing.2) as (H & _).
  - vm_compute. reflexivity.
  - split; [exact H|]. vm_compute. repeat split; reflexivity.
Defined.

End sweep_trace_facts.

(** ** [expireUnused]: what stays on disk *)

Section sweep_frame_facts.

Implicit Types (c : diskCommittedContentIndexCache) (w : world).

Lemma no_env_schedule w :
  no_env w ->
  no_env (schedule w) /\ w_fs (schedule w) = w_fs w /\
  w_now (schedule w) = w_now w.
Proof.
  intros H. unfold no_env in *.
  assert (s_env (next_sched w) = []) as He.
  { unfold next_sched. destruct (w_script w) as [|s l]; [done|].
    by inversion H. }
  destruct (schedule_no_env w He) as [-> ->].
  rewrite schedule_script. split; [|done].
  destruct (w_script w); [done|]. by inversion H.
Qed.

Lemma fs_del_absent p fs : fs_lookup fs p = None -> fs_del p fs = fs.
Proof.
  unfold fs_lookup, fs_del. destruct (fs !! p_dir p) as [d|] eqn:E; [|done].
  intros H. rewrite delete_id by done. by apply insert_id.
Qed.

(** A removal, failed or not, touches no other path. *)
Lemma sys_Remove_frame p w q :
  no_env w -> q <> p ->
  no_env (sys (Remove p) w).2 /\
  fs_lookup (w_fs (sys (Remove p) w).2) q = fs_lookup (w_fs w) q.
Proof.
  intros Hne Hq. destruct (no_env_schedule w Hne) as (Hs & Hf & _).
  destruct (sys (Remove p) w) as [r w'] eqn:S.
  apply sys_inv in S as (w2 & -> & S). cbn.
  destruct (s_fault (next_sched w)).
  - destruct S as [_ ->]. cbn [failed]. by rewrite Hf.
  - cbn in S. destruct (fs_lookup (w_fs (schedule w)) p); simplify_eq/=.
    + split; [done|]. rewrite fs_lookup_del_ne by done. by rewrite Hf.
    + by rewrite Hf.
Qed.

Lemma sys_ReadDir_frame dir w :
  no_env w ->
  no_env (sys (ReadDir dir) w).2 /\ w_fs (sys (ReadDir dir) w).2 = w_fs w.
Proof.
  intros Hne. destruct (no_env_schedule w Hne) as (Hs & Hf & _).
  destruct (sys (ReadDir dir) w) as [r w'] eqn:S.
  apply sys_inv in S as (w2 & -> & S). cbn.
  destruct (s_fault (next_sched w)).
  - destruct S as [_ ->]. cbn [failed]. by rewrite Hf.
  - cbn in S. destruct (w_fs (schedule w) !! dir); by simplify_eq/=.
Qed.

Lemma expireOne_frame c rem w q :
  no_env w -> q <> Join (dirname c) (fi_Name rem) ->
  no_env (expireOne c rem w).2 /\
  fs_lookup (w_fs (expireOne c rem w).2) q = fs_lookup (w_fs w) q.
Proof.
  intros Hne Hq.
  unfold expireOne, call_timeNow, log_Debugf, log_Errorf, os_Remove, bind,
    ret.
  destruct (_ >? _); [|done].
  pose proof (sys_Remove_frame (Join (dirname c) (fi_Name rem))
      (GoOS.record (EvLog LDebug "removing unused %v %v"
         [ArgStr (fi_Name rem); ArgTime (fi_ModTime rem)]) w) q Hne Hq)
    as [H1 H2].
  destruct (sys _ _) as [[e| | | |] w2]; cbn in *; done.
Qed.

Lemma for_each_expire_frame c (l : list (string * FileInfo)) q : forall w,
  no_env w ->
  Forall (fun kv => q <> Join (dirname c) (fi_Name kv.2)) l ->
  fs_lookup (w_fs (for_each l (fun kv => expireOne c kv.2) w).2) q
  = fs_lookup (w_fs w) q.
Proof.
  induction l as [|kv l IH]; intros w Hne Hl; [done|].
  inversion Hl as [|? ? Hkv Hl']; subst.
  cbn [for_each]. unfold bind.
  destruct (expireOne_frame c kv.2 w q Hne Hkv) as [Hne1 Hf1].
  destruct (expireOne c kv.2 w) as [[] w1]. cbn [snd] in *.
  rewrite IH by done. done.
Qed.

(** The candidates all carry the suffix. *)
Lemma candidates_have_suffix entries used k ent :
  subtract (collect entries) used !! k = Some ent ->
  GoStrings.HasSuffix (fi_Name ent) simpleIndexSuffix = true /\
  GoStrings.TrimSuffix (fi_Name ent) simpleIndexSuffix = k /\
  (k ∉ used) /\ ent ∈ entries.
Proof.
  rewrite subtract_lookup. destruct (decide (k ∈ used)); [done|].
  intros (? & ? & ?)%collect_lookup_inv. done.
Qed.

End sweep_frame_facts.

Section sweep_suffix_facts.

Implicit Types (c : diskCommittedContentIndexCache) (w : world).

Lemma os_CreateTemp_name dir pattern w p w' :
  os_CreateTemp dir pattern w = (Ok p, w') ->
  exists d : gmap string file, p = Path dir (fresh_tmp d pattern).
Proof.
  unfold os_CreateTemp, bind, ret.
  destruct (sys _ w) as [r w1] eqn:S. intros [= Hr <-].
  destruct r as [| |p'| |]; try discriminate. simplify_eq.
  apply sys_inv in S as (w2 & _ & S).
  destruct (s_fault (next_sched w)); [by destruct S|].
  cbn in S. destruct (w_fs (schedule w) !! dir) as [d|]; simplify_eq.
  eauto.
Qed.

(** The file [writeTempFileAtomic] leaves behind is named by
    [os.CreateTemp]: "tmp" followed by digits. *)
Lemma writeTempFileAtomic_name dir data w p w' :
  writeTempFileAtomic dir data w = ((p, None), w') ->
  exists d : gmap string file, p = Path dir (fresh_tmp d "tmp").
Proof.
  unfold writeTempFileAtomic, bind, ret.
  destruct (os_CreateTemp dir "tmp" w) as [[tf|e] w1] eqn:C1.
  - destruct (file_Write tf data w1) as [[?|] w2]; [discriminate|].
    destruct (file_Close tf w2) as [[?|] w3]; [discriminate|].
    intros [= <- <-]. by apply os_CreateTemp_name in C1.
  - destruct (IsNotExist (Some e)); [|discriminate].
    destruct (os_MkdirAll dir w1) as [? w2].
    destruct (os_CreateTemp dir "tmp" w2) as [[tf|e2] w3] eqn:C2;
      [|discriminate].
    destruct (file_Write tf data w3) as [[?|] w4]; [discriminate|].
    destruct (file_Close tf w4) as [[?|] w5]; [discriminate|].
    intros [= <- <-]. by apply os_CreateTemp_name in C2.
Qed.

Lemma ioutil_ReadDir_spec dir w :
  let r := ioutil_ReadDir dir w in
  (exists o, w_trace r.2 = (w_trace w ++ [EvSys (ReadDir dir) o])%list) /\
  (no_env w -> no_env r.2 /\ w_fs r.2 = w_fs w).
Proof.
  unfold ioutil_ReadDir, bind, ret.
  pose proof (sys_trace (ReadDir dir) w) as Ht.
  pose proof (sys_ReadDir_frame dir w) as Hf.
  destruct (sys (ReadDir dir) w) as [r w1]. cbn [fst snd] in *.
  split; [eauto|done].
Qed.

(** C10.  [expireUnused] only removes files of its own directory whose
    names end in ".sndx".  When no other process interferes, every other
    file (in another directory, or without the suffix) is on disk after
    the call exactly as before, whatever its age and whatever fails.  A
    temporary file left by [writeTempFileAtomic] is such a file: its name
    never has the suffix.  When the listing of the directory fails,
    [expireUnused] returns that error wrapped with "can't list cache",
    makes no removal, and (without interference) leaves the disk
    unchanged. *)
Theorem expireUnused_only_index_files c used w :
  let res := expireUnused c used w in
  let listing :=
    ioutil_ReadDir (dirname c)
      (log_Debugf "expireUnused (except %v)" [ArgIDs used] w).2 in
  (exists new,
     w_trace res.2 = (w_trace w ++ new)%list /\
     Forall (fun pr => p_dir pr.1 = dirname c /\
                       GoStrings.HasSuffix (p_base pr.1) simpleIndexSuffix
                       = true)
            (removals new) /\
     (forall e, listing.1.2 = Some e -> removals new = []))
  /\ (no_env w ->
      forall q,
        p_dir q <> dirname c \/
        GoStrings.HasSuffix (p_base q) simpleIndexSuffix = false ->
        fs_lookup (w_fs res.2) q = fs_lookup (w_fs w) q)
  /\ (forall e,
        listing.1.2 = Some e ->
        res.1 = Some (withMessage e "can't list cache" []) /\
        res.2 = listing.2 /\
        (no_env w -> w_fs res.2 = w_fs w))
  /\ (forall dir data w0 p w',
        writeTempFileAtomic dir data w0 = ((p, None), w') ->
        GoStrings.HasSuffix (p_base p) simpleIndexSuffix = false).
Proof.
  intros res listing.
  set (w0 := (log_Debugf "expireUnused (except %v)" [ArgIDs used] w).2)
    in *.
  assert (w_trace w0
          = (w_trace w ++ [EvLog LDebug "expireUnused (except %v)"
                             [ArgIDs used]])%list) as Ht0 by done.
  assert (no_env w -> no_env w0) as Hne0 by done.
  assert (w_fs w0 = w_fs w) as Hf0 by done.
  destruct (ioutil_ReadDir_spec (dirname c) w0) as [[o Ht1] Hfr].
  fold listing in Ht1, Hfr.
  assert (res = match listing.1.2 with
                | Some _ => (Wrap listing.1.2 "can't list cache", listing.2)
                | None =>
                    (None,
                     (for_each
                        (shuffle (w_maporder listing.2)
                           (map_to_list
                              (subtract (collect listing.1.1) used)))
                        (fun kv => expireOne c kv.2) listing.2).2)
                end) as Hres by apply expireUnused_eq.
  clearbody res listing.
  destruct listing as [[entries err] w1]. cbn [fst snd] in *.
  destruct err as [e|]; subst res; cbn [fst snd Wrap].
  - split; [|split; [|split]].
    + eexists. split; [by rewrite Ht1, Ht0, <- app_assoc|].
      split; [constructor|done].
    + intros Hne q _. destruct Hfr as [_ ->]; auto.
    + intros e' [= <-]. split; [done|]. split; [done|].
      intros Hne. destruct Hfr as [_ ->]; auto.
    + intros dir data w' p w'' (d & ->)%writeTempFileAtomic_name.
      apply fresh_tmp_no_suffix.
  - set (visits := shuffle (w_maporder w1)
                     (map_to_list (subtract (collect entries) used))).
    assert (forall kv, kv ∈ visits ->
              GoStrings.HasSuffix (fi_Name kv.2) simpleIndexSuffix = true)
      as Hsfx.
    { intros [k ent] Hin. unfold visits in Hin.
      rewrite shuffle_perm in Hin. apply elem_of_map_to_list in Hin.
      by apply candidates_have_suffix in Hin as (? & _). }
    split; [|split; [|split]].
    + destruct (for_each_expire_trace c visits w1)
        as (new & Ht & _ & _ & _ & Hr).
      eexists. split; [by rewrite Ht, Ht1, Ht0, <- !app_assoc|].
      split; [|done]. cbn.
      eapply Forall_impl; [exact Hr|].
      intros pr (kv & Hin & ->). split; [done|]. by apply Hsfx.
    + intros Hne q Hq. destruct Hfr as [Hne1 Hf1]; [auto|].
      rewrite for_each_expire_frame; [by rewrite Hf1, Hf0|done|].
      apply Forall_forall. intros kv Hin ->. cbn in Hq.
      destruct Hq as [Hq|Hq]; [done|].
      by rewrite (Hsfx kv Hin) in Hq.
    + done.
    + intros dir data w' p w'' (d & ->)%writeTempFileAtomic_name.
      apply fresh_tmp_no_suffix.
Qed.

End sweep_suffix_facts.

(** ** [expireUnused] without faults: what is deleted *)

Section sweep_quiet_facts.

Implicit Types (c : diskCommittedContentIndexCache) (w : world).

Lemma expireOne_quiet c rem w now :
  w_script w = [] ->
  timeNow c w = now ->
  let w' := (expireOne c rem w).2 in
  w_script w' = [] /\ w_now w' = w_now w /\
  w_fs w' = expire_step (dirname c) now (w_fs w) (fi_Name rem, rem).
Proof.
  intros Hq Hnow.
  unfold expireOne, call_timeNow, log_Debugf, log_Errorf, os_Remove, bind,
    ret, expire_step.
  rewrite Hnow, retention_test. cbn [fst snd].
  destruct (older_than_retention now (fi_ModTime rem)); [|done].
  rewrite sys_quiet by done. cbn -[fs_del].
  destruct (fs_lookup (w_fs w) (Join (dirname c) (fi_Name rem))) eqn:E;
    cbn -[fs_del]; [done|].
  by rewrite fs_del_absent.
Qed.

Lemma for_each_expire_quiet c now (l : list (string * FileInfo)) : forall w,
  w_script w = [] ->
  (forall w', w_now w' = w_now w -> timeNow c w' = now) ->
  let w' := (for_each l (fun kv => expireOne c kv.2) w).2 in
  w_script w' = [] /\ w_now w' = w_now w /\
  w_fs w' = foldl (fun fs kv => expire_step (dirname c) now fs
                                  (fi_Name kv.2, kv.2)) (w_fs w) l.
Proof.
  induction l as [|kv l IH]; intros w Hq Hnow; [done|].
  cbn [for_each foldl]. unfold bind.
  destruct (expireOne_quiet c kv.2 w now Hq) as (Hq1 & Hn1 & Hf1); [auto|].
  destruct (expireOne c kv.2 w) as [[] w1]. cbn [snd] in *.
  destruct (IH w1) as (Hq2 & Hn2 & Hf2); [done|..].
  { intros w' Hw'. apply Hnow. congruence. }
  cbn zeta in *. rewrite Hq2, Hn2, Hf2, Hn1, Hf1. done.
Qed.

(** A path of the directory after the sweep: gone if one of the visited
    entries has that name and is old enough, untouched otherwise. *)
Lemma expire_fold_lookup dir now (l : list (string * FileInfo)) :
  forall fs name,
    fs_lookup (foldl (fun fs kv => expire_step dir now fs
                                     (fi_Name kv.2, kv.2)) fs l)
              (Path dir name)
    = if bool_decide
           (Exists (fun kv => fi_Name kv.2 = name /\
                              older_than_retention now (fi_ModTime kv.2)
                              = true) l)
      then None
      else fs_lookup fs (Path dir name).
Proof.
  induction l as [|kv l IH]; intros fs name.
  - cbn [foldl]. rewrite bool_decide_eq_false_2; [done|].
    by intros H%Exists_nil.
  - cbn [foldl]. rewrite IH.
    destruct (bool_decide (Exists _ l)) eqn:El.
    + apply bool_decide_eq_true in El.
      rewrite bool_decide_eq_true_2; [done|]. by right.
    + apply bool_decide_eq_false in El.
      unfold expire_step at 1. cbn [snd].
      destruct (older_than_retention now (fi_ModTime kv.2)) eqn:Eo.
      * destruct (decide (fi_Name kv.2 = name)) as [<-|Hne].
        -- rewrite bool_decide_eq_true_2 by (by left).
           apply fs_lookup_del_eq.
        -- rewrite bool_decide_eq_false_2.
           ++ apply fs_lookup_del_ne. unfold Join. congruence.
           ++ intros [[? _]|?]%Exists_cons; done.
      * rewrite bool_decide_eq_false_2; [done|].
        intros [[_ ?]|?]%Exists_cons; [congruence|done].
Qed.

End sweep_quiet_facts.

Section sweep_exact_facts.

Import GoStrings.
Implicit Types (c : diskCommittedContentIndexCache) (w : world).

Lemma ioutil_ReadDir_quiet dir w (d : gmap string file) :
  w_script w = [] ->
  w_fs w !! dir = Some d ->
  ioutil_ReadDir dir w
  = (((fun nf => stat_of nf.1 nf.2) <$> map_to_list d, None),
     GoOS.record (EvSys (ReadDir dir) None) w).
Proof.
  intros Hq Hd. unfold ioutil_ReadDir, bind, ret.
  rewrite sys_quiet by done. cbn. by rewrite Hd.
Qed.

(** Among the entries visited, one has the name [name] and is old enough
    exactly when the file of that name is expirable. *)
Lemma visits_expirable (d : gmap string file) used now seeds name f :
  d !! name = Some f ->
  let entries := (fun nf => stat_of nf.1 nf.2) <$> map_to_list d in
  let visits :=
    shuffle seeds (map_to_list (subtract (collect entries) used)) in
  Exists (fun kv => fi_Name kv.2 = name /\
                    older_than_retention now (fi_ModTime kv.2) = true)
         visits
  <-> expirable used now name f = true.
Proof.
  intros Hd entries visits. unfold expirable.
  rewrite !andb_true_iff, bool_decide_eq_true, Exists_exists.
  split.
  - intros ([k ent] & Hin & Hn & Ho). cbn [snd] in *.
    unfold visits in Hin. rewrite shuffle_perm in Hin.
    apply elem_of_map_to_list in Hin.
    apply candidates_have_suffix in Hin as (Hs & Ht & Hu & He).
    apply listing_elem in He as (f' & Hd' & Eent).
    rewrite Hn in Hd', Hs, Ht. rewrite Hd in Hd'. injection Hd' as <-.
    rewrite Eent in Ho. cbn in Ho. by rewrite Ht.
  - intros [[Hs Hu] Ho].
    set (ent := stat_of name f).
    assert (ent ∈ entries) as He by (apply listing_elem; by exists f).
    exists (TrimSuffix name simpleIndexSuffix, ent). split; [|done].
    unfold visits. rewrite shuffle_perm. apply elem_of_map_to_list.
    rewrite subtract_lookup, decide_False by done.
    apply (collect_lookup entries ent); [|done..].
    intros e1 e2. apply listing_unique.
Qed.

(** C3.  In a world where nothing fails and nobody interferes, with a
    time source that reads [now] during the call, [expireUnused] returns
    nil and removes from the cache directory exactly the files whose name
    ends in ".sndx", whose identifier is not in [used], and whose
    modification time is more than one hour before [now]; every other
    file of the directory, and every file of any other directory, is
    left as it was.  In particular a file whose identifier is in [used]
    stays whatever its age, and a file that is at most one hour old
    stays whether it is used or not. *)
Theorem expireUnused_deletes_exactly c used w d now :
  w_script w = [] ->
  w_fs w !! dirname c = Some d ->
  (forall w', w_now w' = w_now w -> timeNow c w' = now) ->
  let res := expireUnused c used w in
  res.1 = None /\
  (forall name,
     fs_lookup (w_fs res.2) (Path (dirname c) name)
     = match d !! name with
       | Some f => if expirable used now name f then None else Some f
       | None => None
       end) /\
  (forall q, p_dir q <> dirname c ->
     fs_lookup (w_fs res.2) q = fs_lookup (w_fs w) q) /\
  (forall id f,
     id ∈ used -> d !! (id +:+ simpleIndexSuffix) = Some f ->
     fs_lookup (w_fs res.2) (indexBlobPath c id) = Some f) /\
  (forall name f,
     d !! name = Some f -> now - f_mtime f <= 3600 * 1000000000 ->
     fs_lookup (w_fs res.2) (Path (dirname c) name) = Some f).
Proof.
  intros Hq Hd Hnow res.
  set (w0 := (log_Debugf "expireUnused (except %v)" [ArgIDs used] w).2).
  set (entries := (fun nf => stat_of nf.1 nf.2) <$> map_to_list d).
  set (w1 := GoOS.record (EvSys (ReadDir (dirname c)) None) w0).
  set (visits := shuffle (w_maporder w1)
                   (map_to_list (subtract (collect entries) used))).
  assert (res = (None, (for_each visits (fun kv => expireOne c kv.2) w1).2))
    as Hres.
  { unfold res. rewrite expireUnused_eq. fold w0. cbv zeta.
    by rewrite (ioutil_ReadDir_quiet (dirname c) w0 d). }
  destruct (for_each_expire_quiet c now visits w1) as (_ & _ & Hfs);
    [done|done|].
  cbv zeta in Hfs. change (w_fs w1) with (w_fs w) in Hfs.
  assert (forall name,
     fs_lookup (w_fs res.2) (Path (dirname c) name)
     = match d !! name with
       | Some f => if expirable used now name f then None else Some f
       | None => None
       end) as Hpoint.
  { intros name. rewrite Hres. cbn [snd]. rewrite Hfs, expire_fold_lookup.
    unfold fs_lookup at 1. cbn [p_dir p_base]. rewrite Hd.
    destruct (d !! name) as [f|] eqn:En; [|by destruct (bool_decide _)].
    pose proof (visits_expirable d used now (w_maporder w1) name f En)
      as Hiff. cbv zeta in Hiff. fold entries visits in Hiff.
    destruct (expirable used now name f).
    - rewrite bool_decide_eq_true_2; [done|]. by apply Hiff.
    - rewrite bool_decide_eq_false_2; [done|].
      intros H%Hiff. discriminate. }
  split; [by rewrite Hres|]. split; [exact Hpoint|].
  split; [|split].
  - intros q Hdir. rewrite Hres. cbn [snd].
    rewrite for_each_expire_frame; [done| |].
    + unfold no_env. cbn. rewrite Hq. constructor.
    + apply Forall_forall. intros kv _ ->. done.
  - intros id f Hu Hf. unfold indexBlobPath, Join. rewrite Hpoint, Hf.
    unfold expirable. rewrite TrimSuffix_app.
    rewrite (bool_decide_eq_false_2 (id ∉ used)) by (by intros H; apply H).
    by rewrite andb_false_r.
  - intros name f Hf Hyoung. rewrite Hpoint, Hf.
    unfold expirable, older_than_retention.
    destruct (Z.gtb_spec (now - f_mtime f) (3600 * 1000000000)); [lia|].
    by rewrite andb_false_r.
Qed.

Lemma expireUnused_deletes_exactly_witness :
  let res := expireUnused cache0 ["kept"] sweep_world in
  res.1 = None /\
  fs_lookup (w_fs res.2) (Path "cache" "old.sndx") = None /\
  fs_lookup (w_fs res.2) (Path "cache" "kept.sndx") = Some (File [] 0) /\
  fs_lookup (w_fs res.2) (Path "cache" "young.sndx")
  = Some (File [] (2 * hour - hour / 2)) /\
  fs_lookup (w_fs res.2) (Path "cache" "tmp7") = Some (File [] 0).
Proof.
  destruct (expireUnused_deletes_exactly cache0 ["kept"] sweep_world
              (list_to_map three_files) (2 * hour) eq_refl)
    as (H1 & H2 & _).
  - vm_compute. reflexivity.
  - intros w' H. exact H.
  - split; [exact H1|]. rewrite !H2. vm_compute. repeat split; reflexivity.
Defined.

End sweep_exact_facts.

(** ** [addContentToCache]: a destination that is already there *)

Section publish_facts.

Implicit Types (c : diskCommittedContentIndexCache) (w : world).

Lemma schedule_spares p w :
  spares p w -> fs_lookup (w_fs (schedule w)) p = fs_lookup (w_fs w) p.
Proof.
  unfold spares, schedule.
  assert (forall l w0,
    Forall (fun a => match a with
                     | EnvPublish q _ | EnvRemove q => q <> p
                     | EnvTick _ => True
                     end) l ->
    fs_lookup (w_fs (foldl env_step w0 l)) p = fs_lookup (w_fs w0) p) as H.
  { induction l as [|a l IH]; intros w0 Hl; [done|].
    inversion Hl as [|? ? Ha Hl']; subst. simpl. rewrite IH by done.
    destruct a; simpl; [by apply fs_lookup_put_ne|
                        by apply fs_lookup_del_ne|done]. }
  intros Hs. by rewrite H.
Qed.

(** A rename that fails has changed nothing. *)
Lemma os_Rename_failed oldpath newpath w e w' :
  os_Rename oldpath newpath w = (Some e, w') ->
  w_fs w' = w_fs (schedule w).
Proof.
  unfold os_Rename, bind, ret.
  destruct (sys _ w) as [r w1] eqn:S. intros [= Hr <-].
  apply sys_inv in S as (w2 & -> & S).
  destruct (s_fault (next_sched w)) as [e'|].
  { by destruct S as [_ ->]. }
  simpl in S.
  destruct (fs_lookup (w_fs (schedule w)) oldpath) as [f|];
    [destruct (w_fs (schedule w) !! p_dir newpath)|];
    by simplify_eq/=.
Qed.

Lemma writeTempFileAtomic_no_removal dir data w :
  exists new,
    w_trace (writeTempFileAtomic dir data w).2 = (w_trace w ++ new)%list /\
    removals new = [].
Proof.
  unfold writeTempFileAtomic, os_CreateTemp, os_MkdirAll, file_Write,
    file_Close, bind, ret.
  repeat (cbn -[sys];
          match goal with
          | |- context [sys ?call ?w0] =>
              let Ht := fresh "Ht" in
              pose proof (sys_trace call w0) as Ht;
              destruct (sys call w0) as [[[]| | | |] ?];
              cbn [fst snd reply_errno] in Ht
          end);
    cbn;
    repeat match goal with
           | H : w_trace _ = _ |- _ => rewrite H; clear H
           end;
    rewrite <- ?app_assoc; (eexists; split; [reflexivity|]); done.
Qed.

(** [addContentToCache] never asks for a file to be removed. *)
Lemma addContentToCache_no_removal c id data w :
  exists new,
    w_trace (addContentToCache c id data w).2 = (w_trace w ++ new)%list /\
    removals new = [].
Proof.
  assert (forall w0, exists new,
            w_trace (hasIndexBlobID c id w0).2 = (w_trace w0 ++ new)%list /\
            removals new = []) as Hhas.
  { intros w0. rewrite hasIndexBlobID_eq. cbn. rewrite schedule_trace.
    eauto. }
  unfold addContentToCache, bind.
  destruct (Hhas w) as (n1 & Ht1 & Hr1).
  destruct (hasIndexBlobID c id w) as [[b e] w1]. cbn [snd] in Ht1.
  destruct e as [e|]; [|destruct b]; [cbn; eauto..|].
  destruct (writeTempFileAtomic_no_removal (dirname c) data w1)
    as (n2 & Ht2 & Hr2).
  destruct (writeTempFileAtomic (dirname c) data w1) as [[t e] w2].
  cbn [snd] in Ht2.
  assert (w_trace w2 = (w_trace w ++ n1 ++ n2)%list /\
          removals (n1 ++ n2) = []) as [Ht2' Hr2'].
  { rewrite Ht2, Ht1, <- app_assoc, removals_app, Hr1, Hr2. done. }
  destruct e as [e|]; [cbn; eauto|].
  unfold os_Rename, bind, ret.
  pose proof (sys_trace (Rename t (indexBlobPath c id)) w2) as Ht3.
  destruct (sys (Rename t (indexBlobPath c id)) w2) as [r w3].
  cbn [fst snd] in Ht3.
  assert (exists n3, w_trace w3 = (w_trace w ++ n3)%list /\
                     removals n3 = []) as (n3 & Ht3' & Hr3).
  { eexists. split; [by rewrite Ht3, Ht2', <- !app_assoc|].
    by rewrite !removals_app, Hr1, Hr2. }
  destruct (os_error r) as [e3|]; [|cbn; eauto].
  destruct (Hhas w3) as (n4 & Ht4 & Hr4).
  destruct (hasIndexBlobID c id w3) as [[b' e'] w4]. cbn [snd] in Ht4.
  assert (exists n5, w_trace w4 = (w_trace w ++ n5)%list /\
                     removals n5 = []) as Hfin.
  { eexists. split; [by rewrite Ht4, Ht3', <- app_assoc|].
    by rewrite removals_app, Hr3, Hr4. }
  destruct e' as [e'|]; [|destruct b']; exact Hfin.
Qed.

(** C7.  When the destination of the identifier is there,
    [addContentToCache] returns nil, but it never discards a temporary
    file.  If the destination is there at the first existence check (and
    the check is not disturbed) no temporary file is made at all: the
    only system call is the stat and the disk stays as it is.  If the
    destination is found only by the check after a failed rename, the
    temporary file has been written by then; from the rename on the call
    changes nothing on disk, so the temporary file stays exactly as it
    was unless another process touches it.  In no case does the call ask
    for a file to be removed. *)
Theorem addContentToCache_existing_destination c id data :
  (forall w f,
     next_sched w = quiet ->
     fs_lookup (w_fs w) (indexBlobPath c id) = Some f ->
     exists w',
       addContentToCache c id data w = (None, w') /\
       w_fs w' = w_fs w /\
       w_trace w'
       = (w_trace w ++ [EvSys (Stat (indexBlobPath c id)) None])%list)
  /\
  (forall w w1 tmpFile w2 e w3 w4,
     hasIndexBlobID c id w = ((false, None), w1) ->
     writeTempFileAtomic (dirname c) data w1 = ((tmpFile, None), w2) ->
     os_Rename tmpFile (indexBlobPath c id) w2 = (Some e, w3) ->
     hasIndexBlobID c id w3 = ((true, None), w4) ->
     addContentToCache c id data w = (None, w4) /\
     is_Some (fs_lookup (w_fs w4) (indexBlobPath c id)) /\
     w_fs w3 = w_fs (schedule w2) /\
     w_fs w4 = w_fs (schedule w3) /\
     (spares tmpFile w2 -> spares tmpFile w3 ->
      fs_lookup (w_fs w4) tmpFile = fs_lookup (w_fs w2) tmpFile))
  /\
  (forall w,
     exists new,
       w_trace (addContentToCache c id data w).2 = (w_trace w ++ new)%list /\
       removals new = []).
Proof.
  split; [|split].
  - intros w f Hq Hf.
    destruct (schedule_no_env w) as [Hfs _]; [by rewrite Hq|].
    assert (hasIndexBlobID c id w
            = ((true, None),
               GoOS.record (EvSys (Stat (indexBlobPath c id)) None)
                           (schedule w))) as H.
    { rewrite hasIndexBlobID_eq. unfold stat_outcome.
      by rewrite Hq, Hfs, Hf. }
    eexists. split; [|split].
    + unfold addContentToCache, bind. rewrite H. reflexivity.
    + done.
    + simpl. by rewrite schedule_trace.
  - intros w w1 tmpFile w2 e w3 w4 H1 H2 H3 H4.
    pose proof (os_Rename_failed _ _ _ _ _ H3) as Hf3.
    pose proof (hasIndexBlobID_true _ _ _ _ H4) as (Hdest & Hf4 & _).
    split.
    { unfold addContentToCache, bind. by rewrite H1, H2, H3, H4. }
    split; [done|]. split; [done|]. split; [done|].
    intros Hs2 Hs3.
    by rewrite Hf4, (schedule_spares _ _ Hs3), Hf3,
      (schedule_spares _ _ Hs2).
  - intros w. apply addContentToCache_no_removal.
Qed.

Lemma addContentToCache_existing_destination_witness :
  (exists w',
     addContentToCache cache0 "abc" ["002"%byte]
       (world_of [("abc.sndx", File ["001"%byte] 7); ("tmp0", File [] 8)]
                 100 [] []) = (None, w') /\
     w_fs w' = {[ "cache" := list_to_map
                    [("abc.sndx", File ["001"%byte] 7);
                     ("tmp0", File [] 8)] ]})
  /\
  (let w := scripted race_script in
   let w1 := (hasIndexBlobID cache0 "abc" w).2 in
   let written := writeTempFileAtomic "cache" ["001"%byte] w1 in
   let tmpFile := written.1.1 in
   let w3 := (os_Rename tmpFile (indexBlobPath cache0 "abc") written.2).2 in
   let w4 := (hasIndexBlobID cache0 "abc" w3).2 in
   addContentToCache cache0 "abc" ["001"%byte] w = (None, w4) /\
   tmpFile = Path "cache" "tmp0" /\
   fs_lookup (w_fs written.2) tmpFile = Some (File ["001"%byte] 100) /\
   fs_lookup (w_fs w4) tmpFile = fs_lookup (w_fs written.2) tmpFile).
Proof.
  split.
  - destruct (proj1 (addContentToCache_existing_destination cache0 "abc"
                       ["002"%byte])
                (world_of [("abc.sndx", File ["001"%byte] 7);
                           ("tmp0", File [] 8)] 100 [] [])
                (File ["001"%byte] 7) eq_refl)
      as (w' & H1 & H2 & _).
    + vm_compute. reflexivity.
    + exists w'. split; [exact H1|]. rewrite H2. reflexivity.
  - intros w w1 written tmpFile w3 w4.
    destruct (proj1 (proj2 (addContentToCache_existing_destination cache0
                              "abc" ["001"%byte]))
                w w1 tmpFile written.2 (PathError EBUSY) w3 w4)
      as (Hadd & _ & _ & _ & Htmp); [vm_compute; reflexivity..|].
    split; [exact Hadd|].
    split; [vm_compute; reflexivity|].
    split; [vm_compute; reflexivity|].
    apply Htmp.
    + vm_compute. repeat constructor. discriminate.
    + vm_compute. constructor.
Defined.

(** C7, as the specification states it, fails here.  Another process
    publishes the index while the temporary file is being written, so
    the destination is there when the temporary file is to be renamed
    onto it, and the rename fails.  The call returns nil, and the
    temporary file, which was not on disk before the call, is on disk
    after it: it has not been discarded. *)
Lemma addContentToCache_existing_destination_counterexample :
  let w := scripted race_script in
  let dest := indexBlobPath cache0 "abc" in
  let w1 := (hasIndexBlobID cache0 "abc" w).2 in
  let w2 := (writeTempFileAtomic "cache" ["001"%byte] w1).2 in
  let res := addContentToCache cache0 "abc" ["001"%byte] w in
  fs_lookup (w_fs (schedule w2)) dest = Some (File ["009"%byte] 100) /\
  res.1 = None /\
  fs_lookup (w_fs res.2) dest = Some (File ["009"%byte] 100) /\
  fs_lookup (w_fs w) (Path "cache" "tmp0") = None /\
  fs_lookup (w_fs res.2) (Path "cache" "tmp0")
  = Some (File ["001"%byte] 100).
Proof. vm_compute. repeat split; reflexivity. Qed.

End publish_facts.

(** ** [mmapOpenWithRetry]: what it does to the world *)

Section mmap_run_facts.

Implicit Types (c : diskCommittedContentIndexCache) (w : world).










(** The open fails three times with the fault of the script and works
    the fourth time: the events are these and no others, the clock has
    moved on by 10 + 20 + 40 ms. *)
Example mmapOpenWithRetry_fourth_attempt_run :
  let p := indexBlobPath cache0 "abc" in
  let res := mmapOpenWithRetry cache0 p flaky_mmap_world in
  w_trace res.2 = retry_trace p 0 [EACCES; EACCES; EACCES] None /\
  w_now res.2 = w_now flaky_mmap_world + 70 * GoTime.Millisecond /\
  w_script res.2 = [].
Proof. vm_compute. repeat split; reflexivity. Qed.

End mmap_run_facts.

(** * Further properties of the code *)

(** ** System calls when no other process interferes *)

Section no_env_facts.

Implicit Types (c : diskCommittedContentIndexCache) (w : world).

Lemma no_env_next w : no_env w -> s_env (next_sched w) = [].
Proof.
  unfold no_env, next_sched. destruct (w_script w); [done|].
  by inversion 1.
Qed.

(** Whatever the script makes fail, a call then leaves the clock alone and
    does to the disk what the kernel does, or what a failed call does. *)
Lemma sys_no_env call w :
  no_env w ->
  no_env (sys call w).2 /\
  w_now (sys call w).2 = w_now w /\
  match s_fault (next_sched w) with
  | Some e =>
      (sys call w).1 = Failed e /\
      w_fs (sys call w).2
      = w_fs (failed call (s_written (next_sched w)) (schedule w)) /\
      w_fs (schedule w) = w_fs w /\
      w_now (schedule w) = w_now w
  | None =>
      exists w2, kernel call (schedule w) = ((sys call w).1, w2) /\
                 w_fs (sys call w).2 = w_fs w2 /\
                 w_fs (schedule w) = w_fs w /\
                 w_now (schedule w) = w_now w
  end.
Proof.
  intros Hne. destruct (no_env_schedule w Hne) as (Hs & Hf & Hn).
  destruct (sys call w) as [r w'] eqn:S.
  apply sys_inv in S as (w2 & -> & S). cbn [fst snd].
  destruct (s_fault (next_sched w)).
  - destruct S as [-> ->].
    destruct (failed_frame call (s_written (next_sched w)) (schedule w))
      as (_ & Hsc & _ & Hnow).
    split; [|split].
    + unfold no_env in *. cbn. by rewrite Hsc.
    + cbn. by rewrite Hnow.
    + done.
  - pose proof (kernel_frame call (schedule w)) as (_ & Hsc & _ & Hnow).
    rewrite S in Hsc, Hnow. cbn in Hsc, Hnow.
    split; [|split].
    + unfold no_env in *. cbn. by rewrite Hsc.
    + cbn. by rewrite Hnow.
    + eauto.
Qed.

Lemma os_Stat_no_env p w :
  no_env w ->
  let r := os_Stat p w in
  no_env r.2 /\ w_now r.2 = w_now w /\ w_fs r.2 = w_fs w /\
  (r.1 = None -> is_Some (fs_lookup (w_fs w) p)).
Proof.
  intros Hne. unfold os_Stat, bind, ret.
  destruct (sys_no_env (Stat p) w Hne) as (H1 & H2 & H3).
  destruct (sys (Stat p) w) as [r w1]. cbn [fst snd] in *.
  destruct (s_fault (next_sched w)).
  - destruct H3 as (-> & -> & Hf & _). cbn [failed]. by rewrite Hf.
  - destruct H3 as (w2 & K & -> & Hf & _). cbn in K. rewrite Hf in K.
    destruct (fs_lookup (w_fs w) p); simplify_eq/=; naive_solver.
Qed.

Lemma os_CreateTemp_no_env dir pattern w :
  no_env w ->
  let r := os_CreateTemp dir pattern w in
  no_env r.2 /\ w_now r.2 = w_now w /\
  match r.1 with
  | Ok p =>
      exists d : gmap string file,
        w_fs w !! dir = Some d /\ p = Path dir (fresh_tmp d pattern) /\
        w_fs r.2 = fs_put p (File [] (w_now w)) (w_fs w)
  | Err _ => w_fs r.2 = w_fs w
  end.
Proof.
  intros Hne. unfold os_CreateTemp, bind, ret.
  destruct (sys_no_env (CreateTemp dir pattern) w Hne) as (H1 & H2 & H3).
  destruct (sys (CreateTemp dir pattern) w) as [r w1]. cbn [fst snd] in *.
  destruct (s_fault (next_sched w)).
  - destruct H3 as (-> & -> & Hf & _). cbn [failed]. by rewrite Hf.
  - destruct H3 as (w2 & K & -> & Hf & Hn). cbn in K. rewrite Hf, Hn in K.
    destruct (w_fs w !! dir) as [d|] eqn:E; simplify_eq/=;
      rewrite ?Hf; naive_solver.
Qed.

Lemma os_MkdirAll_no_env dir w :
  no_env w ->
  let r := os_MkdirAll dir w in
  no_env r.2 /\ w_now r.2 = w_now w /\
  (w_fs r.2 = w_fs w \/
   (w_fs w !! dir = None /\ w_fs r.2 = <[dir := ∅]> (w_fs w))).
Proof.
  intros Hne. unfold os_MkdirAll, bind, ret.
  destruct (sys_no_env (MkdirAll dir) w Hne) as (H1 & H2 & H3).
  destruct (sys (MkdirAll dir) w) as [r w1]. cbn [fst snd] in *.
  destruct (s_fault (next_sched w)).
  - destruct H3 as (-> & -> & Hf & _). cbn [failed]. rewrite Hf. eauto.
  - destruct H3 as (w2 & K & -> & Hf & _). cbn in K. rewrite Hf in K.
    destruct (w_fs w !! dir) as [d|] eqn:E; simplify_eq/=;
      rewrite ?Hf; naive_solver.
Qed.

Lemma file_Write_no_env tf data w :
  no_env w ->
  let r := file_Write tf data w in
  no_env r.2 /\ w_now r.2 = w_now w /\
  match r.1 with
  | None =>
      w_fs r.2 = match fs_lookup (w_fs w) tf with
                 | Some f =>
                     fs_put tf (File (f_data f ++ data) (w_now w)) (w_fs w)
                 | None => w_fs w
                 end
  | Some _ =>
      w_fs r.2 = w_fs w \/
      exists f k,
        fs_lookup (w_fs w) tf = Some f /\
        w_fs r.2 = fs_put tf (File (f_data f ++ take k data) (w_now w))
                          (w_fs w)
  end.
Proof.
  intros Hne. unfold file_Write, bind, ret.
  destruct (sys_no_env (FWrite tf data) w Hne) as (H1 & H2 & H3).
  destruct (sys (FWrite tf data) w) as [r w1]. cbn [fst snd] in *.
  destruct (s_fault (next_sched w)).
  - destruct H3 as (-> & -> & Hf & Hn).
    split; [done|]. split; [done|]. cbn [os_error].
    pose proof (failed_fs (FWrite tf data) (s_written (next_sched w))
                  (schedule w)) as [->|(f & Hl & ->)]; rewrite ?Hf, ?Hn in *.
    + by left.
    + right. eauto.
  - destruct H3 as (w2 & K & -> & Hf & Hn). cbn in K. rewrite Hf, Hn in K.
    destruct (fs_lookup (w_fs w) tf); simplify_eq/=; rewrite ?Hf;
      naive_solver.
Qed.

Lemma file_Close_no_env tf w :
  no_env w ->
  let r := file_Close tf w in
  no_env r.2 /\ w_now r.2 = w_now w /\ w_fs r.2 = w_fs w.
Proof.
  intros Hne. unfold file_Close, bind, ret.
  destruct (sys_no_env (FClose tf) w Hne) as (H1 & H2 & H3).
  destruct (sys (FClose tf) w) as [r w1]. cbn [fst snd] in *.
  destruct (s_fault (next_sched w)).
  - destruct H3 as (-> & -> & Hf & _). cbn [failed]. by rewrite Hf.
  - destruct H3 as (w2 & K & -> & Hf & _). cbn in K. by simplify_eq/=.
Qed.

Lemma os_Rename_no_env oldpath newpath w :
  no_env w ->
  let r := os_Rename oldpath newpath w in
  no_env r.2 /\ w_now r.2 = w_now w /\
  match r.1 with
  | None =>
      exists f, fs_lookup (w_fs w) oldpath = Some f /\
                w_fs r.2 = fs_put newpath f (fs_del oldpath (w_fs w))
  | Some _ => w_fs r.2 = w_fs w
  end.
Proof.
  intros Hne. unfold os_Rename, bind, ret.
  destruct (sys_no_env (Rename oldpath newpath) w Hne) as (H1 & H2 & H3).
  destruct (sys (Rename oldpath newpath) w) as [r w1]. cbn [fst snd] in *.
  destruct (s_fault (next_sched w)).
  - destruct H3 as (-> & -> & Hf & _). cbn [failed]. by rewrite Hf.
  - destruct H3 as (w2 & K & -> & Hf & _). cbn in K. rewrite Hf in K.
    destruct (fs_lookup (w_fs w) oldpath) as [f|];
      [destruct (w_fs w !! p_dir newpath)|]; simplify_eq/=;
      rewrite ?Hf; naive_solver.
Qed.

Lemma mmap_Open_no_env p w :
  no_env w ->
  let r := mmap_Open p w in
  no_env r.2 /\ w_now r.2 = w_now w /\ w_fs r.2 = w_fs w /\
  match r.1 with
  | Ok data => exists f, fs_lookup (w_fs w) p = Some f /\ f_data f = data
  | Err e =>
      fs_lookup (w_fs w) p = None -> s_fault (next_sched w) = None ->
      e = PathError ENOENT
  end.
Proof.
  intros Hne. unfold mmap_Open, bind, ret.
  destruct (sys_no_env (MmapOpen p) w Hne) as (H1 & H2 & H3).
  destruct (sys (MmapOpen p) w) as [r w1]. cbn [fst snd] in *.
  destruct (s_fault (next_sched w)).
  - destruct H3 as (-> & -> & Hf & _). cbn [failed]. by rewrite Hf.
  - destruct H3 as (w2 & K & -> & Hf & _). cbn in K. rewrite Hf in K.
    destruct (fs_lookup (w_fs w) p) as [f|]; simplify_eq/=;
      rewrite ?Hf; naive_solver.
Qed.

End no_env_facts.

(** ** [writeTempFileAtomic] when no other process interferes *)

Section writeTemp_no_env_facts.

Implicit Types (w : world).

Lemma temp_written tf data w :
  no_env w ->
  fs_lookup (w_fs w) tf = Some (File [] (w_now w)) ->
  let rw := file_Write tf data w in
  no_env rw.2 /\ w_now rw.2 = w_now w /\
  match rw.1 with
  | Some _ =>
      exists written,
        written `prefix_of` data /\
        w_fs rw.2 = fs_put tf (File written (w_now w)) (w_fs w)
  | None =>
      w_fs rw.2 = fs_put tf (File data (w_now w)) (w_fs w) /\
      let rc := file_Close tf rw.2 in
      no_env rc.2 /\ w_now rc.2 = w_now w /\ w_fs rc.2 = w_fs rw.2
  end.
Proof.
  intros Hne Hl.
  destruct (file_Write_no_env tf data w Hne) as (H1 & H2 & H3).
  destruct (file_Write tf data w) as [[e|] w1]; cbn [fst snd] in *.
  { split; [done|]. split; [done|].
    destruct H3 as [->|(f & k & Hl' & ->)].
    - exists []. split; [apply prefix_nil|]. symmetry. by apply fs_put_id.
    - rewrite Hl in Hl'. injection Hl' as <-. cbn [f_data app].
      exists (take k data). split; [|done].
      exists (drop k data). by rewrite take_drop. }
  rewrite Hl in H3. cbn in H3.
  destruct (file_Close_no_env tf w1 H1) as (H4 & H5 & H6).
  repeat split; try done. congruence.
Qed.

(** What [writeTempFileAtomic] leaves on disk, whatever fails. *)
Lemma writeTempFileAtomic_no_env dir data w :
  no_env w ->
  let r := writeTempFileAtomic dir data w in
  no_env r.2 /\ w_now r.2 = w_now w /\
  match r.1 with
  | (p, None) =>
      (exists d : gmap string file, p = Path dir (fresh_tmp d "tmp")) /\
      fs_lookup (w_fs w) p = None /\
      w_fs r.2 = fs_put p (File data (w_now w)) (w_fs w)
  | (p, Some err) =>
      p = no_path /\
      (((exists e, err = withMessage e "can't create tmp file" []) /\
        (w_fs r.2 = w_fs w \/
         (w_fs w !! dir = None /\ w_fs r.2 = <[dir := ∅]> (w_fs w))))
       \/ exists t,
            (exists d : gmap string file, t = fresh_tmp d "tmp") /\
            fs_lookup (w_fs w) (Path dir t) = None /\
            (((exists e, err = withMessage e "can't write to temp file" [])
              /\ exists written,
                   written `prefix_of` data /\
                   w_fs r.2
                   = fs_put (Path dir t) (File written (w_now w)) (w_fs w))
             \/ (err = fundamental "can't close tmp file" [] /\
                 w_fs r.2
                 = fs_put (Path dir t) (File data (w_now w)) (w_fs w))))
  end.
Proof.
  intros Hne. unfold writeTempFileAtomic, bind, ret.
  destruct (os_CreateTemp_no_env dir "tmp" w Hne) as (Hne1 & Hn1 & Hc1).
  destruct (os_CreateTemp dir "tmp" w) as [[tf|e1] w1]; cbn [fst snd] in *.
  - destruct Hc1 as (d & Hd & -> & Hf1).
    assert (fs_lookup (w_fs w) (Path dir (fresh_tmp d "tmp")) = None) as Hfr.
    { unfold fs_lookup. cbn. rewrite Hd. apply fresh_tmp_fresh. }
    destruct (temp_written (Path dir (fresh_tmp d "tmp")) data w1 Hne1)
      as (Hne2 & Hn2 & Hw).
    { by rewrite Hf1, fs_lookup_put_eq, Hn1. }
    destruct (file_Write _ data w1) as [[ew|] w2]; cbn [fst snd] in *.
    + split; [done|]. split; [congruence|]. split; [done|].
      right. exists (fresh_tmp d "tmp"). split; [eauto|]. split; [done|].
      left.
      split; [destruct ew; eauto|].
      destruct Hw as (written & Hpre & ->). exists written.
      split; [done|]. by rewrite Hf1, fs_put_put, Hn1.
    + destruct Hw as (Hf2 & Hne3 & Hn3 & Hf3).
      destruct (file_Close _ w2) as [[ec|] w3]; cbn [fst snd] in *.
      * split; [done|]. split; [congruence|]. split; [done|].
        right. exists (fresh_tmp d "tmp"). split; [eauto|]. split; [done|].
        right.
        split; [done|]. by rewrite Hf3, Hf2, Hf1, fs_put_put, Hn1.
      * split; [done|]. split; [congruence|]. split; [eauto|].
        split; [done|]. by rewrite Hf3, Hf2, Hf1, fs_put_put, Hn1.
  - destruct (IsNotExist (Some e1)).
    2:{ cbn. split; [done|]. split; [done|]. split; [done|].
        left. split; [eauto|]. by left. }
    destruct (os_MkdirAll_no_env dir w1 Hne1) as (Hne2 & Hn2 & Hm).
    destruct (os_MkdirAll dir w1) as [em w2]; cbn [fst snd] in *.
    rewrite Hc1 in Hm.
    destruct (os_CreateTemp_no_env dir "tmp" w2 Hne2) as (Hne3 & Hn3 & Hc2).
    destruct (os_CreateTemp dir "tmp" w2) as [[tf|e2] w3]; cbn [fst snd] in *.
    2:{ split; [done|]. split; [congruence|]. split; [done|].
        left. split; [eauto|]. rewrite Hc2. tauto. }
    destruct Hc2 as (d & Hd & -> & Hf3).
    assert (fs_lookup (w_fs w) (Path dir (fresh_tmp d "tmp")) = None /\
            forall f, fs_put (Path dir (fresh_tmp d "tmp")) f (w_fs w2)
                      = fs_put (Path dir (fresh_tmp d "tmp")) f (w_fs w))
      as [Hfr Hput].
    { destruct Hm as [Hm|[Hnone Hm]]; rewrite Hm in Hd |- *.
      - split; [|done]. unfold fs_lookup. cbn. rewrite Hd.
        apply fresh_tmp_fresh.
      - split; [unfold fs_lookup; cbn; by rewrite Hnone|].
        intros f. by apply fs_put_mkdir. }
    destruct (temp_written (Path dir (fresh_tmp d "tmp")) data w3 Hne3)
      as (Hne4 & Hn4 & Hw).
    { rewrite Hf3, fs_lookup_put_eq. do 2 f_equal. congruence. }
    assert (w_now w2 = w_now w) as Hn2' by congruence.
    assert (w_now w3 = w_now w) as Hn3' by congruence.
    destruct (file_Write _ data w3) as [[ew|] w4]; cbn [fst snd] in *.
    + split; [done|]. split; [congruence|]. split; [done|].
      right. exists (fresh_tmp d "tmp"). split; [eauto|]. split; [done|].
      left.
      split; [destruct ew; eauto|].
      destruct Hw as (written & Hpre & ->). exists written.
      split; [done|]. by rewrite Hf3, fs_put_put, Hput, Hn3'.
    + destruct Hw as (Hf4 & Hne5 & Hn5 & Hf5).
      destruct (file_Close _ w4) as [[ec|] w5]; cbn [fst snd] in *.
      * split; [done|]. split; [congruence|]. split; [done|].
        right. exists (fresh_tmp d "tmp"). split; [eauto|]. split; [done|].
        right.
        split; [done|].
        by rewrite Hf5, Hf4, Hf3, fs_put_put, Hput, Hn3'.
      * split; [done|]. split; [congruence|]. split; [eauto|].
        split; [done|].
        by rewrite Hf5, Hf4, Hf3, fs_put_put, Hput, Hn3'.
Qed.

End writeTemp_no_env_facts.

Section writeTemp_extra.

Implicit Types (w : world).

(** X1.  Without interference and whatever fails: when [writeTempFileAtomic]
    returns a nil error, the path it returns is in the directory asked
    for, was not in use before, now holds exactly the data, and no other
    path of the disk has changed. *)
Theorem writeTempFileAtomic_success_content dir data w p w' :
  no_env w ->
  writeTempFileAtomic dir data w = ((p, None), w') ->
  p_dir p = dir /\
  fs_lookup (w_fs w) p = None /\
  fs_lookup (w_fs w') p = Some (File data (w_now w)) /\
  (forall q, q <> p -> fs_lookup (w_fs w') q = fs_lookup (w_fs w) q).
Proof.
  intros Hne H.
  pose proof (writeTempFileAtomic_no_env dir data w Hne) as (_ & _ & Hr).
  rewrite H in Hr. cbn in Hr. destruct Hr as ((d & ->) & Hfr & Hfs).
  rewrite Hfs. split; [done|]. split; [done|].
  split; [apply fs_lookup_put_eq|].
  intros q Hq. by apply fs_lookup_put_ne.
Qed.

Lemma writeTempFileAtomic_success_content_witness :
  let r := writeTempFileAtomic "cache" ["007"%byte]
             (world_of [("tmp0", File [] 5)] 100 [] []) in
  r.1 = (Path "cache" "tmp1", None) /\
  fs_lookup (w_fs r.2) (Path "cache" "tmp1") = Some (File ["007"%byte] 100) /\
  fs_lookup (w_fs r.2) (Path "cache" "tmp0") = Some (File [] 5).
Proof.
  set (w := world_of [("tmp0", File [] 5)] 100 [] []).
  destruct (writeTempFileAtomic_success_content "cache" ["007"%byte] w
              (Path "cache" "tmp1")
              (writeTempFileAtomic "cache" ["007"%byte] w).2)
    as (_ & _ & H1 & H2).
  - constructor.
  - vm_compute. reflexivity.
  - split; [vm_compute; reflexivity|]. split; [exact H1|].
    rewrite H2 by discriminate. vm_compute. reflexivity.
Defined.



(** The disk is full after two of three bytes: the temporary file is left
    with those two bytes. *)
Example writeTempFileAtomic_short_write :
  let r := writeTempFileAtomic "cache" ["001"%byte; "002"%byte; "003"%byte]
             short_write_world in
  r.1 = (no_path,
         Some (withMessage (PathError ENOSPC) "can't write to temp file" []))
  /\ fs_lookup (w_fs r.2) (Path "cache" "tmp0")
     = Some (File ["001"%byte; "002"%byte] 100).
Proof. vm_compute. split; reflexivity. Qed.

End writeTemp_extra.

(** ** [addContentToCache] when no other process interferes *)

Section add_no_env_facts.

Implicit Types (c : diskCommittedContentIndexCache) (w : world).

Lemma hasIndexBlobID_no_env c id w :
  no_env w ->
  let r := hasIndexBlobID c id w in
  no_env r.2 /\ w_now r.2 = w_now w /\ w_fs r.2 = w_fs w.
Proof.
  intros Hne. rewrite hasIndexBlobID_eq. cbn.
  destruct (no_env_schedule w Hne) as (? & ? & ?). done.
Qed.

Lemma mkdir_lookup dir (fs : filesystem) q :
  fs !! dir = None -> fs_lookup (<[dir := ∅]> fs) q = fs_lookup fs q.
Proof.
  intros Hnone. unfold fs_lookup.
  destruct (decide (p_dir q = dir)) as [->|Hd].
  - by rewrite lookup_insert_eq, Hnone, lookup_empty.
  - by rewrite lookup_insert_ne.
Qed.

Lemma temp_path_ne_index c id (d : gmap string file) :
  Path (dirname c) (fresh_tmp d "tmp") <> indexBlobPath c id.
Proof.
  unfold indexBlobPath, Join, fresh_tmp. intros [= E].
  by apply tmp_name_ne_index in E.
Qed.

(** What [addContentToCache] does to the disk, whatever fails. *)
Lemma addContentToCache_no_env c id data w :
  no_env w ->
  let r := addContentToCache c id data w in
  let dest := indexBlobPath c id in
  no_env r.2 /\ w_now r.2 = w_now w /\
  (forall q f, q <> dest -> fs_lookup (w_fs w) q = Some f ->
               fs_lookup (w_fs r.2) q = Some f) /\
  (fs_lookup (w_fs r.2) dest = fs_lookup (w_fs w) dest \/
   (r.1 = None /\
    fs_lookup (w_fs r.2) dest = Some (File data (w_now w)))).
Proof.
  intros Hne. unfold addContentToCache, bind.
  destruct (hasIndexBlobID_no_env c id w Hne) as (Hne1 & Hn1 & Hf1).
  destruct (hasIndexBlobID c id w) as [[b e] w1]; cbn [fst snd] in *.
  destruct e as [e|]; [|destruct b].
  1,2: cbn; rewrite Hf1; repeat split; try done; auto.
  pose proof (writeTempFileAtomic_no_env (dirname c) data w1 Hne1)
    as (Hne2 & Hn2 & Hr).
  destruct (writeTempFileAtomic (dirname c) data w1) as [[p e] w2];
    cbn [fst snd] in *.
  rewrite Hf1, Hn1 in Hr.
  destruct e as [e|].
  - (* the temporary file could not be written *)
    cbn. split; [done|]. split; [congruence|].
    destruct Hr as [_ [[_ Hfs]|(t & [d ->] & Hfr & Hcase)]].
    + assert (forall q, fs_lookup (w_fs w2) q = fs_lookup (w_fs w) q) as Hq.
      { intros q. destruct Hfs as [->|[Hnone ->]]; [done|].
        by apply mkdir_lookup. }
      split; [intros q f _; by rewrite Hq|]. left. apply Hq.
    + assert (exists x, w_fs w2
                = fs_put (Path (dirname c) (fresh_tmp d "tmp")) x (w_fs w))
        as [x ->]
        by (destruct Hcase as [[_ (written & _ & ->)]|[_ ->]]; eauto).
      split.
      * intros q f _ Hq. rewrite fs_lookup_put_ne; [done|].
        intros <-. congruence.
      * left. apply fs_lookup_put_ne. apply temp_path_ne_index.
  - destruct Hr as ([d ->] & Hfr & Hfs2).
    destruct (os_Rename_no_env (Path (dirname c) (fresh_tmp d "tmp"))
                (indexBlobPath c id) w2 Hne2) as (Hne3 & Hn3 & Hren).
    destruct (os_Rename _ _ w2) as [[er|] w3]; cbn [fst snd] in *.
    + (* the rename failed: the second check changes nothing *)
      destruct (hasIndexBlobID_no_env c id w3 Hne3) as (Hne4 & Hn4 & Hf4).
      assert (w_fs (hasIndexBlobID c id w3).2
              = fs_put (Path (dirname c) (fresh_tmp d "tmp"))
                       (File data (w_now w)) (w_fs w)) as Hfin
        by (by rewrite Hf4, Hren, Hfs2).
      assert (w_now (hasIndexBlobID c id w3).2 = w_now w) as Hnow
        by congruence.
      destruct (hasIndexBlobID c id w3) as [[b' e'] w4];
        cbn [fst snd] in *.
      assert (forall r0 : goerror,
        no_env (r0, w4).2 /\ w_now (r0, w4).2 = w_now w /\
        (forall q f, q <> indexBlobPath c id ->
           fs_lookup (w_fs w) q = Some f ->
           fs_lookup (w_fs (r0, w4).2) q = Some f) /\
        (fs_lookup (w_fs (r0, w4).2) (indexBlobPath c id)
         = fs_lookup (w_fs w) (indexBlobPath c id) \/
         ((r0, w4).1 = None /\
          fs_lookup (w_fs (r0, w4).2) (indexBlobPath c id)
          = Some (File data (w_now w))))) as Hall.
      { intros r0. cbn [fst snd]. rewrite Hfin.
        split; [done|]. split; [done|]. split.
        - intros q f _ Hq. rewrite fs_lookup_put_ne; [done|].
          intros <-. congruence.
        - left. apply fs_lookup_put_ne. apply temp_path_ne_index. }
      destruct e' as [e'|]; [|destruct b']; apply Hall.
    + (* the rename worked *)
      destruct Hren as (f & Hl & Hfs3).
      rewrite Hfs2, fs_lookup_put_eq in Hl. injection Hl as <-.
      cbn. split; [done|]. split; [congruence|].
      rewrite Hfs3, Hfs2. split.
      * intros q f' Hq Hqf. rewrite fs_lookup_put_ne by done.
        rewrite fs_lookup_del_ne by (intros <-; congruence).
        rewrite fs_lookup_put_ne by (intros <-; congruence). done.
      * right. split; [done|]. apply fs_lookup_put_eq.
Qed.

End add_no_env_facts.

Section add_extra.

Import GoStrings.
Implicit Types (c : diskCommittedContentIndexCache) (w : world).

Lemma indexBlobPath_identifier_aux c id id' :
  indexBlobPath c id = indexBlobPath c id' -> id = id'.
Proof.
  unfold indexBlobPath, Join. intros [= E].
  rewrite <- (TrimSuffix_app id simpleIndexSuffix),
          <- (TrimSuffix_app id' simpleIndexSuffix).
  by rewrite E.
Qed.

(** X3.  The file of an identifier is what the sweep files under that
    identifier.  Let [id] be a file name and let the disk hold a file at
    [indexBlobPath c id].  Then the listing of the cache directory has an
    entry for it, with the modification time of the file; the first loop
    of [expireUnused] stores this entry under the key [id] and under no
    other key; and the path the third loop would remove for this entry
    is [indexBlobPath c id] again.  (For an identifier with a separator
    in it Go's [Join] would clean the path, which [Join] here does not
    follow: hence the first hypothesis.) *)
Theorem indexBlobPath_identifier c id (fs : filesystem)
    (d : gmap string file) f :
  file_name id = true ->
  fs !! dirname c = Some d ->
  fs_lookup fs (indexBlobPath c id) = Some f ->
  let entries := (fun nf => stat_of nf.1 nf.2) <$> map_to_list d in
  exists ent,
    ent ∈ entries /\
    fi_ModTime ent = f_mtime f /\
    Join (dirname c) (fi_Name ent) = indexBlobPath c id /\
    collect entries !! id = Some ent /\
    (forall k, collect entries !! k = Some ent -> k = id).
Proof.
  intros _ Hd Hf entries.
  unfold fs_lookup, indexBlobPath, Join in Hf. cbn [p_dir p_base] in Hf.
  rewrite Hd in Hf.
  set (ent := stat_of (id +:+ simpleIndexSuffix) f).
  assert (ent ∈ entries) as Hin by (apply listing_elem; eauto).
  assert (HasSuffix (fi_Name ent) simpleIndexSuffix = true) as Hs
    by apply HasSuffix_app.
  assert (TrimSuffix (fi_Name ent) simpleIndexSuffix = id) as Ht
    by apply TrimSuffix_app.
  exists ent. split; [done|]. split; [done|]. split; [done|]. split.
  - rewrite <- Ht at 1. apply collect_lookup; [|done..].
    apply listing_unique.
  - intros k (_ & _ & Hk)%collect_lookup_inv. congruence.
Qed.

Lemma indexBlobPath_identifier_witness :
  exists ent,
    fi_Name ent = "old.sndx" /\
    collect ((fun nf => stat_of nf.1 nf.2)
               <$> map_to_list (list_to_map three_files : gmap string file))
      !! "old" = Some ent.
Proof.
  destruct (indexBlobPath_identifier cache0 "old" (w_fs sweep_world)
              (list_to_map three_files) (File [] 0))
    as (ent & _ & _ & Hn & Hc & _).
  - reflexivity.
  - vm_compute. reflexivity.
  - vm_compute. reflexivity.
  - exists ent. split; [|exact Hc]. by injection Hn.
Defined.

(** X4.  Without interference and whatever fails, [addContentToCache]
    keeps every file that was on disk, except possibly the destination
    itself: same name, same bytes, same modification time. *)
Theorem addContentToCache_keeps_other_files c id data w q f :
  no_env w ->
  q <> indexBlobPath c id ->
  fs_lookup (w_fs w) q = Some f ->
  fs_lookup (w_fs (addContentToCache c id data w).2) q = Some f.
Proof.
  intros Hne Hq Hf.
  destruct (addContentToCache_no_env c id data w Hne) as (_ & _ & H & _).
  by apply H.
Qed.

Lemma addContentToCache_keeps_other_files_witness :
  fs_lookup
    (w_fs (addContentToCache cache0 "new" ["001"%byte]
             (world_of three_files 100 [quiet; Sched [] (Some ENOSPC)] [])).2)
    (Path "cache" "old.sndx")
  = Some (File [] 0).
Proof.
  apply addContentToCache_keeps_other_files.
  - repeat constructor.
  - discriminate.
  - vm_compute. reflexivity.
Defined.

(** X5.  Without interference the destination is published whole or not
    at all.  When [addContentToCache] returns nil the destination exists
    and holds either what it held before or exactly the bytes given;
    when it returns an error the destination is as it was before: in
    particular it has not appeared. *)
Theorem addContentToCache_atomic c id data w :
  no_env w ->
  let r := addContentToCache c id data w in
  let dest := indexBlobPath c id in
  (r.1 = None ->
   exists f, fs_lookup (w_fs r.2) dest = Some f /\
             (fs_lookup (w_fs w) dest = Some f \/
              f = File data (w_now w))) /\
  (r.1 <> None -> fs_lookup (w_fs r.2) dest = fs_lookup (w_fs w) dest).
Proof.
  intros Hne r dest.
  destruct (addContentToCache_no_env c id data w Hne) as (_ & _ & _ & H).
  fold r dest in H. split.
  - intros Hnil.
    assert (addContentToCache c id data w = (None, r.2)) as Hadd.
    { unfold r in *. destruct (addContentToCache c id data w) as [e w'].
      cbn in *. by subst. }
    apply addContentToCache_success in Hadd as [f Hf].
    fold dest in Hf. exists f. split; [done|].
    destruct H as [H|[_ H]]; [left|right]; congruence.
  - intros Herr. by destruct H as [H|[H _]].
Qed.

Lemma addContentToCache_atomic_witness :
  (addContentToCache cache0 "abc" ["001"%byte] (scripted fail_script)).1
  <> None /\
  fs_lookup
    (w_fs (addContentToCache cache0 "abc" ["001"%byte]
             (scripted fail_script)).2)
    (indexBlobPath cache0 "abc") = None.
Proof.
  assert ((addContentToCache cache0 "abc" ["001"%byte]
             (scripted fail_script)).1 <> None) as Herr
    by (vm_compute; discriminate).
  split; [exact Herr|].
  destruct (addContentToCache_atomic cache0 "abc" ["001"%byte]
              (scripted fail_script)) as [_ H].
  - repeat constructor.
  - rewrite (H Herr). vm_compute. reflexivity.
Defined.

(** X6.  In a world without faults and interference, adding one
    identifier does not change the answer of [hasIndexBlobID] for any
    other identifier. *)
Theorem addContentToCache_other_identifier c id id' data w :
  w_script w = [] ->
  id <> id' ->
  (hasIndexBlobID c id' (addContentToCache c id data w).2).1
  = (hasIndexBlobID c id' w).1.
Proof.
  intros Hq Hne.
  assert (indexBlobPath c id <> indexBlobPath c id') as Hp.
  { intros E. by apply indexBlobPath_identifier_aux in E. }
  destruct (hasIndexBlobID_quiet c id' w Hq) as (w0 & -> & _).
  destruct (fs_lookup (w_fs w) (indexBlobPath c id)) as [f|] eqn:E.
  - destruct (addContentToCache_quiet_present c id data w Hq)
      as (w1 & -> & Hq1 & _ & _ & Hf1); [eauto|]. cbn [snd].
    destruct (hasIndexBlobID_quiet c id' w1 Hq1) as (w2 & -> & _).
    cbn. by rewrite Hf1.
  - destruct (addContentToCache_quiet_fresh c id data w Hq E)
      as (w1 & -> & Hq1 & _ & _ & Hf1). cbn [snd].
    destruct (hasIndexBlobID_quiet c id' w1 Hq1) as (w2 & -> & _).
    cbn. by rewrite Hf1, fs_lookup_put_ne.
Qed.

Lemma addContentToCache_other_identifier_witness :
  (hasIndexBlobID cache0 "old"
     (addContentToCache cache0 "new" ["001"%byte] sweep_world).2).1
  = (true, None).
Proof.
  rewrite addContentToCache_other_identifier by done.
  vm_compute. reflexivity.
Defined.

End add_extra.

(** ** [mmapOpenWithRetry] and [openIndex] *)

Section mmap_extra.

Implicit Types (c : diskCommittedContentIndexCache) (w : world).

(** X7.  The bound on the recursion of [mmapOpenRetryLoop] never cuts the
    loop of the source short: once it covers the retries that are left,
    a larger bound gives the same result. *)
Theorem mmapOpenRetryLoop_fuel_enough p fuel extra :
  forall retryCount nextDelay r w,
    maxRetries - retryCount <= Z.of_nat fuel ->
    mmapOpenRetryLoop p (fuel + extra) retryCount nextDelay r w
    = mmapOpenRetryLoop p fuel retryCount nextDelay r w.
Proof.
  induction fuel as [|k IH]; intros rc nd r w Hf.
  - destruct r as [f|e]; cbn.
    + by destruct extra.
    + assert ((rc <? maxRetries) = false) as Hlt by (apply Z.ltb_ge; lia).
      destruct extra; cbn; by rewrite Hlt.
  - destruct r as [f|e]; [done|].
    destruct (Z.ltb_spec rc maxRetries) as [Hlt|Hge].
    + rewrite Nat.add_succ_l, !mmapOpenRetryLoop_step by done.
      cbv zeta. apply IH. lia.
    + cbn. by rewrite (proj2 (Z.ltb_ge rc maxRetries) Hge).
Qed.

Lemma mmapOpenRetryLoop_fuel_enough_witness :
  mmapOpenRetryLoop (Path "cache" "x") (Z.to_nat maxRetries + 5) 0
    startingDelay (Err (PathError EIO)) empty_world
  = mmapOpenRetryLoop (Path "cache" "x") (Z.to_nat maxRetries) 0
      startingDelay (Err (PathError EIO)) empty_world.
Proof.
  apply mmapOpenRetryLoop_fuel_enough. vm_compute. discriminate.
Defined.

Lemma mmapOpenRetryLoop_no_env p fuel :
  forall retryCount nextDelay r w,
    no_env w ->
    let res := mmapOpenRetryLoop p fuel retryCount nextDelay r w in
    no_env res.2 /\ w_fs res.2 = w_fs w /\ w_now w <= w_now res.2 /\
    match res.1 with
    | Ok f =>
        r = Ok f \/
        exists file, fs_lookup (w_fs w) p = Some file /\ f_data file = f
    | Err _ => True
    end.
Proof.
  induction fuel as [|k IH]; intros rc nd r w Hne res.
  - unfold res. destruct r as [f|e]; cbn; [|destruct (rc <? maxRetries)];
      cbn; repeat split; try done; try lia; eauto.
  - unfold res. destruct r as [f|e].
    { cbn. repeat split; try done; try lia; eauto. }
    destruct (Z.ltb_spec rc maxRetries) as [Hlt|Hge].
    2:{ cbn. rewrite (proj2 (Z.ltb_ge rc maxRetries) Hge). cbn.
        repeat split; try done; try lia; eauto. }
    rewrite mmapOpenRetryLoop_step by done. cbv zeta.
    set (w1 := (time_Sleep nd
                  (log_Debugf "retry #%v unable to mmap.Open(): %v"
                     [ArgInt (rc + 1); ArgErr (Some e)] w).2).2).
    assert (no_env w1) as Hne1 by done.
    assert (w_fs w1 = w_fs w) as Hf1 by done.
    assert (w_now w <= w_now w1) as Hn1 by (cbn; lia).
    destruct (mmap_Open_no_env p w1 Hne1) as (Hne2 & Hn2 & Hf2 & Ho).
    destruct (mmap_Open p w1) as [r' w2]; cbn [fst snd] in *.
    destruct (IH (rc + 1) (GoTime.wrap64 (nd * 2)) r' w2 Hne2)
      as (Hne3 & Hf3 & Hn3 & Hres).
    split; [done|]. split; [congruence|]. split; [lia|].
    destruct (mmapOpenRetryLoop p k _ _ r' w2) as [[f|e'] w3];
      cbn [fst snd] in *; [|eauto].
    right. destruct Hres as [->|(file & Hl & Hd)].
    + destruct Ho as (file & Hl & Hd). exists file. by rewrite <- Hf1.
    + exists file. by rewrite <- Hf1, <- Hf2.
Qed.

(** X8.  [mmapOpenWithRetry] only reads.  Without interference and
    whatever fails, it changes no file and never moves the clock back;
    it returns either a handle and a nil error, or no handle and an
    error; and the bytes of a handle are the bytes the file at that path
    holds. *)
Theorem mmapOpenWithRetry_reads_file c p w :
  no_env w ->
  let res := mmapOpenWithRetry c p w in
  w_fs res.2 = w_fs w /\
  w_now w <= w_now res.2 /\
  match res.1 with
  | (Some f, None) =>
      exists file, fs_lookup (w_fs w) p = Some file /\ f_data file = f
  | (None, Some err) => exists e, err = withMessage e "mmap() error" []
  | _ => False
  end.
Proof.
  intros Hne res. unfold res, mmapOpenWithRetry, bind, ret.
  destruct (mmap_Open_no_env p w Hne) as (Hne1 & Hn1 & Hf1 & Ho).
  destruct (mmap_Open p w) as [r w1]; cbn [fst snd] in *.
  pose proof (mmapOpenRetryLoop_no_env p (Z.to_nat maxRetries) 0
                startingDelay r w1 Hne1) as (Hne2 & Hf2 & Hn2 & Hres).
  destruct (mmapOpenRetryLoop p (Z.to_nat maxRetries) 0 startingDelay r w1)
    as [[f|e] w2]; cbn [fst snd] in *.
  - split; [congruence|]. split; [lia|].
    destruct Hres as [->|(file & Hl & Hd)].
    + exact Ho.
    + exists file. by rewrite <- Hf1.
  - split; [congruence|]. split; [lia|]. cbn. eauto.
Qed.

Lemma mmapOpenWithRetry_reads_file_witness :
  (mmapOpenWithRetry cache0 (indexBlobPath cache0 "abc")
     flaky_mmap_world).1 = (Some ["042"%byte], None) /\
  w_fs (mmapOpenWithRetry cache0 (indexBlobPath cache0 "abc")
          flaky_mmap_world).2 = w_fs flaky_mmap_world.
Proof.
  destruct (mmapOpenWithRetry_reads_file cache0 (indexBlobPath cache0 "abc")
              flaky_mmap_world) as (H & _).
  - repeat constructor.
  - split; [vm_compute; reflexivity|exact H].
Defined.

End mmap_extra.

Section mmap_quiet_extra.

Implicit Types (c : diskCommittedContentIndexCache) (w : world).

Lemma mmap_Open_quiet p w :
  w_script w = [] ->
  mmap_Open p w
  = match fs_lookup (w_fs w) p with
    | Some f => (Ok (f_data f), GoOS.record (EvSys (MmapOpen p) None) w)
    | None => (Err (PathError ENOENT),
               GoOS.record (EvSys (MmapOpen p) (Some ENOENT)) w)
    end.
Proof.
  intros Hq. unfold mmap_Open, bind, ret. rewrite sys_quiet by done.
  cbn. by destruct (fs_lookup (w_fs w) p).
Qed.

(** The loop when the file is not there and nothing fails: every retry
    is made, each after its sleep. *)
Lemma mmapOpenRetryLoop_quiet_absent p fuel :
  forall retryCount nextDelay w,
    w_script w = [] ->
    fs_lookup (w_fs w) p = None ->
    retryCount = maxRetries - Z.of_nat fuel ->
    (fuel <= 8)%nat ->
    nextDelay = startingDelay * 2 ^ retryCount ->
    let res := mmapOpenRetryLoop p fuel retryCount nextDelay
                 (Err (PathError ENOENT)) w in
    res.1 = Err (PathError ENOENT) /\
    w_script res.2 = [] /\ w_fs res.2 = w_fs w /\
    w_now res.2 = w_now w + startingDelay * (2 ^ 8 - 2 ^ retryCount).
Proof.
  induction fuel as [|k IH]; intros rc nd w Hq Habs Hrc Hk Hnd res.
  - unfold res. cbn. unfold maxRetries in *.
    assert (rc = 8) as -> by lia. cbn. repeat split; try done. lia.
  - unfold res. unfold maxRetries in *.
    rewrite mmapOpenRetryLoop_step by (unfold maxRetries; lia).
    cbv zeta.
    set (w1 := (time_Sleep nd
                  (log_Debugf "retry #%v unable to mmap.Open(): %v"
                     [ArgInt (rc + 1); ArgErr (Some (PathError ENOENT))]
                     w).2).2).
    assert (w_script w1 = []) as Hq1 by done.
    assert (fs_lookup (w_fs w1) p = None) as Habs1 by done.
    rewrite (mmap_Open_quiet p w1 Hq1), Habs1. cbn [fst snd].
    assert (0 <= rc < 8) as Hb by lia.
    assert (0 < 2 ^ rc <= 2 ^ 7) as Hp.
    { split; [by apply Z.pow_pos_nonneg; lia|].
      apply Z.pow_le_mono_r; lia. }
    assert (GoTime.wrap64 (nd * 2) = startingDelay * 2 ^ (rc + 1)) as Hw.
    { rewrite Z.pow_add_r by lia. rewrite wrap64_small; [lia|].
      unfold startingDelay, GoTime.Millisecond in *. lia. }
    destruct (IH (rc + 1) (GoTime.wrap64 (nd * 2))
                (GoOS.record (EvSys (MmapOpen p) (Some ENOENT)) w1))
      as (H1 & H2 & H3 & H4); try done; try lia.
    split; [done|]. split; [done|]. split; [done|].
    rewrite H4. cbn [w_now GoOS.record w1 time_Sleep with_now snd].
    cbn. rewrite Z.pow_add_r by lia.
    unfold startingDelay, GoTime.Millisecond in *. lia.
Qed.

Lemma mmapOpenWithRetry_quiet_present c p w file :
  w_script w = [] ->
  fs_lookup (w_fs w) p = Some file ->
  mmapOpenWithRetry c p w
  = ((Some (f_data file), None), GoOS.record (EvSys (MmapOpen p) None) w).
Proof.
  intros Hq E. unfold mmapOpenWithRetry, bind, ret.
  rewrite mmap_Open_quiet by done. by rewrite E.
Qed.

Lemma mmapOpenWithRetry_quiet_absent c p w :
  w_script w = [] ->
  fs_lookup (w_fs w) p = None ->
  let res := mmapOpenWithRetry c p w in
  res.1 = (None, Some (withMessage (PathError ENOENT) "mmap() error" []))
  /\ w_now res.2 = w_now w + 2550 * GoTime.Millisecond
  /\ w_fs res.2 = w_fs w /\ w_script res.2 = [].
Proof.
  intros Hq E. unfold mmapOpenWithRetry, bind, ret.
  rewrite mmap_Open_quiet by done. rewrite E.
  assert (0 = maxRetries - Z.of_nat (Z.to_nat maxRetries)) as H0
    by reflexivity.
  assert (Z.to_nat maxRetries <= 8)%nat as H8 by (vm_compute; lia).
  assert (startingDelay = startingDelay * 2 ^ 0) as Hd by reflexivity.
  pose proof (mmapOpenRetryLoop_quiet_absent p (Z.to_nat maxRetries) 0
                startingDelay
                (GoOS.record (EvSys (MmapOpen p) (Some ENOENT)) w)
                Hq E H0 H8 Hd) as Hloop.
  cbv zeta in Hloop. clear H0 H8 Hd.
  destruct (mmapOpenRetryLoop p (Z.to_nat maxRetries) 0 startingDelay _ _)
    as [r w2]. cbn [fst snd] in *.
  destruct Hloop as (-> & H2 & H3 & H4).
  split; [done|]. split; [|done]. rewrite H4.
  change (w_now (GoOS.record (EvSys (MmapOpen p) (Some ENOENT)) w))
    with (w_now w).
  unfold startingDelay, GoTime.Millisecond. lia.
Qed.

(** X9.  In a world without faults and interference: a file that is there
    is mapped at the first attempt, with no sleep, and the handle holds
    its bytes; a file that is not there costs the whole back-off, 2550
    ms of sleep, and the error is the not-found error wrapped with
    "mmap() error". *)
Theorem mmapOpenWithRetry_quiet c p w :
  w_script w = [] ->
  match fs_lookup (w_fs w) p with
  | Some file =>
      mmapOpenWithRetry c p w
      = ((Some (f_data file), None),
         GoOS.record (EvSys (MmapOpen p) None) w)
  | None =>
      let res := mmapOpenWithRetry c p w in
      res.1 = (None, Some (withMessage (PathError ENOENT) "mmap() error" []))
      /\ w_now res.2 = w_now w + 2550 * GoTime.Millisecond
      /\ w_fs res.2 = w_fs w /\ w_script res.2 = []
  end.
Proof.
  intros Hq. destruct (fs_lookup (w_fs w) p) as [file|] eqn:E.
  - by apply mmapOpenWithRetry_quiet_present.
  - by apply mmapOpenWithRetry_quiet_absent.
Qed.

Lemma mmapOpenWithRetry_quiet_witness :
  (mmapOpenWithRetry cache0 (indexBlobPath cache0 "old") sweep_world).1
  = (Some [], None).
Proof.
  pose proof (mmapOpenWithRetry_quiet cache0 (indexBlobPath cache0 "old")
                sweep_world eq_refl) as H.
  change (fs_lookup (w_fs sweep_world) (indexBlobPath cache0 "old"))
    with (Some (File [] 0)) in H.
  by rewrite H.
Defined.

End mmap_quiet_extra.

Section openIndex_extra.

Implicit Types (c : diskCommittedContentIndexCache) (w : world).
Context {packIndex : Type}.
Variable openPackIndex :
  option (list byte) -> Z -> option packIndex * goerror.

(** X10.  What is added is what is opened.  In a world without faults and
    interference, [openIndex] right after [addContentToCache] of the same
    identifier maps the file at once (no sleep) and hands to the parser
    the bytes in the cache for that identifier together with the
    per-content overhead of the cache: the bytes just added, or the
    bytes already there when the identifier was there before. *)
Theorem openIndex_after_add c id data w :
  w_script w = [] ->
  let w1 := (addContentToCache c id data w).2 in
  let stored := match fs_lookup (w_fs w) (indexBlobPath c id) with
                | Some f => f_data f
                | None => data
                end in
  (openIndex openPackIndex c id w1).1
  = openPackIndex (Some stored) (v1PerContentOverhead c) /\
  w_now (openIndex openPackIndex c id w1).2 = w_now w.
Proof.
  intros Hq w1 stored. unfold w1, stored, openIndex, bind, ret.
  destruct (fs_lookup (w_fs w) (indexBlobPath c id)) as [f|] eqn:E.
  - destruct (addContentToCache_quiet_present c id data w Hq)
      as (w2 & -> & Hq2 & Hn2 & _ & Hf2); [eauto|]. cbn [snd].
    rewrite (mmapOpenWithRetry_quiet_present c _ w2 f) by congruence.
    cbn. by destruct (openPackIndex _ _).
  - destruct (addContentToCache_quiet_fresh c id data w Hq E)
      as (w2 & -> & Hq2 & Hn2 & _ & Hf2). cbn [snd].
    rewrite (mmapOpenWithRetry_quiet_present c _ w2 (File data (w_now w)))
      by (rewrite ?Hf2; auto using fs_lookup_put_eq).
    cbn. by destruct (openPackIndex _ _).
Qed.

(** X11.  In a world without faults and interference, [openIndex] of an
    identifier that is not in the cache fails with the not-found error
    wrapped with "mmap() error", after the whole back-off of 2550 ms;
    the parser is not consulted and no file is created. *)
Theorem openIndex_missing c id w :
  w_script w = [] ->
  fs_lookup (w_fs w) (indexBlobPath c id) = None ->
  let res := openIndex openPackIndex c id w in
  res.1 = (None, Some (withMessage (PathError ENOENT) "mmap() error" []))
  /\ w_now res.2 = w_now w + 2550 * GoTime.Millisecond
  /\ w_fs res.2 = w_fs w.
Proof.
  intros Hq E. unfold openIndex, bind, ret.
  destruct (mmapOpenWithRetry_quiet_absent c (indexBlobPath c id) w Hq E)
    as (H1 & H2 & H3 & _).
  destruct (mmapOpenWithRetry c (indexBlobPath c id) w) as [[f err] w1].
  cbn [fst snd] in *. injection H1 as -> ->. done.
Qed.

End openIndex_extra.

Lemma openIndex_after_add_witness :
  (openIndex (fun f overhead => (f, None)) cache0 "abc"
     (addContentToCache cache0 "abc" ["001"%byte; "002"%byte]
        empty_world).2).1
  = (Some ["001"%byte; "002"%byte], None).
Proof.
  destruct (openIndex_after_add (fun f overhead => (f, None)) cache0 "abc"
              ["001"%byte; "002"%byte] empty_world eq_refl) as [H _].
  exact H.
Defined.

Lemma openIndex_missing_witness :
  (openIndex (fun f (overhead : Z) => (f, None)) cache0 "nope"
     sweep_world).1
  = (None, Some (withMessage (PathError ENOENT) "mmap() error" [])).
Proof.
  destruct (openIndex_missing (fun f (overhead : Z) => (f, None)) cache0
              "nope" sweep_world eq_refl) as [H _].
  - vm_compute. reflexivity.
  - exact H.
Defined.

(** ** [expireUnused] *)

Section expire_helpers.

Import GoStrings.
Implicit Types (c : diskCommittedContentIndexCache) (w : world).

Lemma expire_fold_dir dir now (l : list (string * FileInfo)) :
  forall fs : filesystem,
    is_Some (fs !! dir) ->
    is_Some (foldl (fun fs kv => expire_step dir now fs
                                   (fi_Name kv.2, kv.2)) fs l !! dir).
Proof.
  induction l as [|kv l IH]; intros fs Hd; [done|].
  cbn [foldl]. apply IH. unfold expire_step. cbn [snd].
  destruct (older_than_retention _ _); [|done].
  unfold fs_del, Join. cbn [p_dir p_base].
  destruct Hd as [d Hd]. rewrite Hd, lookup_insert_eq. eauto.
Qed.

(** The sweep in a world without faults and interference. *)
Lemma expireUnused_quiet c used w (d : gmap string file) now :
  w_script w = [] ->
  w_fs w !! dirname c = Some d ->
  (forall w', w_now w' = w_now w -> timeNow c w' = now) ->
  let res := expireUnused c used w in
  res.1 = None /\ w_script res.2 = [] /\ w_now res.2 = w_now w /\
  is_Some (w_fs res.2 !! dirname c) /\
  (forall name,
     fs_lookup (w_fs res.2) (Path (dirname c) name)
     = match d !! name with
       | Some f => if expirable used now name f then None else Some f
       | None => None
       end) /\
  (forall q, p_dir q <> dirname c ->
     fs_lookup (w_fs res.2) q = fs_lookup (w_fs w) q).
Proof.
  intros Hq Hd Hnow res.
  set (w0 := (log_Debugf "expireUnused (except %v)" [ArgIDs used] w).2).
  set (entries := (fun nf => stat_of nf.1 nf.2) <$> map_to_list d).
  set (w1 := GoOS.record (EvSys (ReadDir (dirname c)) None) w0).
  set (visits := shuffle (w_maporder w1)
                   (map_to_list (subtract (collect entries) used))).
  assert (res = (None, (for_each visits (fun kv => expireOne c kv.2) w1).2))
    as Hres.
  { unfold res. rewrite expireUnused_eq. fold w0. cbv zeta.
    by rewrite (ioutil_ReadDir_quiet (dirname c) w0 d). }
  destruct (for_each_expire_quiet c now visits w1) as (Hs & Hn & Hfs);
    [done|done|].
  cbv zeta in Hs, Hn, Hfs. change (w_fs w1) with (w_fs w) in Hfs.
  rewrite Hres. cbn [fst snd].
  split; [done|]. split; [done|]. split; [done|]. split; [|split].
  - rewrite Hfs. apply expire_fold_dir. rewrite Hd. eauto.
  - intros name. rewrite Hfs, expire_fold_lookup.
    unfold fs_lookup at 1. cbn [p_dir p_base]. rewrite Hd.
    destruct (d !! name) as [f|] eqn:En; [|by destruct (bool_decide _)].
    pose proof (visits_expirable d used now (w_maporder w1) name f En)
      as Hiff. cbv zeta in Hiff. fold entries visits in Hiff.
    destruct (expirable used now name f).
    + rewrite bool_decide_eq_true_2; [done|]. by apply Hiff.
    + rewrite bool_decide_eq_false_2; [done|].
      intros H%Hiff. discriminate.
  - intros q Hdir.
    rewrite for_each_expire_frame; [done| |].
    + unfold no_env. cbn. rewrite Hq. constructor.
    + apply Forall_forall. intros kv _ ->. done.
Qed.

Lemma ioutil_ReadDir_no_env dir w :
  no_env w ->
  let r := ioutil_ReadDir dir w in
  no_env r.2 /\ w_now r.2 = w_now w /\ w_fs r.2 = w_fs w /\
  (r.1.2 = None ->
   exists d : gmap string file,
     w_fs w !! dir = Some d /\
     r.1.1 = (fun nf => stat_of nf.1 nf.2) <$> map_to_list d).
Proof.
  intros Hne. unfold ioutil_ReadDir, bind, ret.
  destruct (sys_no_env (ReadDir dir) w Hne) as (H1 & H2 & H3).
  destruct (sys (ReadDir dir) w) as [r w1]. cbn [fst snd] in *.
  destruct (s_fault (next_sched w)).
  - destruct H3 as (-> & -> & Hf & _). cbn [failed]. by rewrite Hf.
  - destruct H3 as (w2 & K & -> & Hf & _). cbn in K. rewrite Hf in K.
    destruct (w_fs w !! dir) as [d|] eqn:E; simplify_eq/=;
      rewrite ?Hf; naive_solver.
Qed.

(** One turn of the sweep, whatever fails: the entry is removed, and then
    it was old enough, or nothing changes. *)
Lemma expireOne_no_env c rem w :
  no_env w ->
  let w' := (expireOne c rem w).2 in
  no_env w' /\ w_now w' = w_now w /\
  (w_fs w' = w_fs w \/
   (older_than_retention (timeNow c w) (fi_ModTime rem) = true /\
    w_fs w' = fs_del (Join (dirname c) (fi_Name rem)) (w_fs w))).
Proof.
  intros Hne.
  unfold expireOne, call_timeNow, log_Debugf, log_Errorf, os_Remove, bind,
    ret.
  rewrite retention_test.
  destruct (older_than_retention (timeNow c w) (fi_ModTime rem)) eqn:Eo;
    [|cbn; auto].
  set (w0 := GoOS.record (EvLog LDebug "removing unused %v %v"
                [ArgStr (fi_Name rem); ArgTime (fi_ModTime rem)]) w).
  assert (no_env w0) as Hne0 by done.
  destruct (sys_no_env (Remove (Join (dirname c) (fi_Name rem))) w0 Hne0)
    as (H1 & H2 & H3).
  destruct (sys _ w0) as [r w1]. cbn [fst snd] in *.
  destruct (s_fault (next_sched w0)).
  - destruct H3 as (-> & H3 & Hf & _). cbn [failed] in H3.
    rewrite Hf in H3. cbn. auto.
  - destruct H3 as (w2 & K & H3 & Hf & _). cbn in K. rewrite Hf in K.
    change (w_fs w0) with (w_fs w) in *.
    destruct (fs_lookup (w_fs w) (Join (dirname c) (fi_Name rem))) eqn:El;
      simplify_eq/=.
    + split; [done|]. split; [done|]. by right.
    + split; [done|]. split; [done|]. left. congruence.
Qed.

Lemma for_each_expire_no_env c now (l : list (string * FileInfo)) :
  forall w,
    no_env w ->
    (forall w', w_now w' = w_now w -> timeNow c w' = now) ->
    let w' := (for_each l (fun kv => expireOne c kv.2) w).2 in
    forall q,
      fs_lookup (w_fs w') q = fs_lookup (w_fs w) q \/
      (fs_lookup (w_fs w') q = None /\
       exists kv, kv ∈ l /\ q = Join (dirname c) (fi_Name kv.2) /\
                  older_than_retention now (fi_ModTime kv.2) = true).
Proof.
  induction l as [|kv l IH]; intros w Hne Hnow w' q; [by left|].
  unfold w'. cbn [for_each]. unfold bind.
  destruct (expireOne_no_env c kv.2 w Hne) as (Hne1 & Hn1 & Hf1).
  rewrite (Hnow w eq_refl) in Hf1.
  destruct (expireOne c kv.2 w) as [[] w1]. cbn [snd] in *.
  destruct (IH w1 Hne1) with (q := q) as [Heq|(Hnone & kv' & Hin & ? & ?)].
  { intros w'' Hw''. apply Hnow. congruence. }
  - rewrite Heq. destruct Hf1 as [->|[Ho ->]]; [by left|].
    destruct (decide (q = Join (dirname c) (fi_Name kv.2))) as [->|Hq].
    + right. split; [apply fs_lookup_del_eq|].
      exists kv. split; [by left|done].
    + left. by apply fs_lookup_del_ne.
  - right. split; [done|]. exists kv'. split; [by right|done].
Qed.

End expire_helpers.

Section expire_extra.

Import GoStrings.
Implicit Types (c : diskCommittedContentIndexCache) (w : world).

(** X12.  A cache directory that does not exist is an error for
    [expireUnused], not an empty cache: in a world without faults the
    call returns the not-found error of the listing wrapped with "can't
    list cache", and it does not create the directory.  An existing
    empty directory is swept without error. *)
Theorem expireUnused_missing_directory c used w :
  w_script w = [] ->
  let res := expireUnused c used w in
  match w_fs w !! dirname c with
  | None =>
      res.1 = Some (withMessage (PathError ENOENT) "can't list cache" [])
      /\ w_fs res.2 = w_fs w
  | Some d => res.1 = None
  end.
Proof.
  intros Hq res. unfold res. rewrite expireUnused_eq. cbv zeta.
  set (w0 := (log_Debugf "expireUnused (except %v)" [ArgIDs used] w).2).
  destruct (w_fs w !! dirname c) as [d|] eqn:E.
  - by rewrite (ioutil_ReadDir_quiet (dirname c) w0 d).
  - unfold ioutil_ReadDir, bind, ret. rewrite sys_quiet by done.
    cbn. by rewrite E.
Qed.

Lemma expireUnused_missing_directory_witness :
  (expireUnused cache0 [] empty_world).1
  = Some (withMessage (PathError ENOENT) "can't list cache" []).
Proof.
  pose proof (expireUnused_missing_directory cache0 [] empty_world eq_refl)
    as H.
  change (w_fs empty_world !! dirname cache0) with (@None (gmap string file))
    in H.
  apply H.
Defined.

(** X13.  Whatever fails, whatever the time source says and in whatever
    order the map is visited: without interference [expireUnused] leaves
    the file of every identifier in [used] exactly as it was. *)
Theorem expireUnused_protects_used c used w id :
  no_env w ->
  id ∈ used ->
  fs_lookup (w_fs (expireUnused c used w).2) (indexBlobPath c id)
  = fs_lookup (w_fs w) (indexBlobPath c id).
Proof.
  intros Hne Hu. rewrite expireUnused_eq. cbv zeta.
  set (w0 := (log_Debugf "expireUnused (except %v)" [ArgIDs used] w).2).
  assert (no_env w0) as Hne0 by done.
  destruct (ioutil_ReadDir_no_env (dirname c) w0 Hne0)
    as (Hne1 & _ & Hf1 & _).
  destruct (ioutil_ReadDir (dirname c) w0) as [[entries err] w1].
  cbn [fst snd] in *. change (w_fs w0) with (w_fs w) in Hf1.
  destruct err as [e|]; cbn [fst snd]; [by rewrite Hf1|].
  rewrite for_each_expire_frame; [by rewrite Hf1|done|].
  apply Forall_forall. intros [k ent] Hin E.
  rewrite shuffle_perm in Hin. apply elem_of_map_to_list in Hin.
  apply candidates_have_suffix in Hin as (_ & Ht & Hnu & _).
  unfold indexBlobPath, Join in E. injection E as E. cbn [snd] in E.
  rewrite <- E, TrimSuffix_app in Ht. by subst k.
Qed.

Lemma expireUnused_protects_used_witness :
  fs_lookup
    (w_fs (expireUnused cache0 ["kept"]
             (world_of three_files (2 * hour) [quiet; Sched [] (Some EIO)]
                       [2%nat])).2)
    (indexBlobPath cache0 "kept")
  = Some (File [] 0).
Proof.
  rewrite expireUnused_protects_used.
  - vm_compute. reflexivity.
  - repeat constructor.
  - by left.
Defined.

(** X14.  Whatever fails and in whatever order the map is visited: without
    interference and with a time source that reads [now] during the
    call, every path of the disk is after [expireUnused] either exactly
    as before, or gone; and what is gone was a file of the cache
    directory with the suffix, an identifier not in [used] and a
    modification time more than one hour before [now].  So the call
    creates nothing, changes no content, and a failure never makes it
    remove more. *)
Theorem expireUnused_removes_only_expirable c used w now q :
  no_env w ->
  (forall w', w_now w' = w_now w -> timeNow c w' = now) ->
  let res := expireUnused c used w in
  fs_lookup (w_fs res.2) q = fs_lookup (w_fs w) q \/
  (fs_lookup (w_fs res.2) q = None /\
   exists name f,
     q = Path (dirname c) name /\
     fs_lookup (w_fs w) q = Some f /\
     expirable used now name f = true).
Proof.
  intros Hne Hnow res. unfold res. rewrite expireUnused_eq. cbv zeta.
  set (w0 := (log_Debugf "expireUnused (except %v)" [ArgIDs used] w).2).
  assert (no_env w0) as Hne0 by done.
  destruct (ioutil_ReadDir_no_env (dirname c) w0 Hne0)
    as (Hne1 & Hn1 & Hf1 & Hl).
  destruct (ioutil_ReadDir (dirname c) w0) as [[entries err] w1].
  cbn [fst snd] in *.
  change (w_fs w0) with (w_fs w) in *. change (w_now w0) with (w_now w) in *.
  destruct err as [e|]; cbn [fst snd]; [left; by rewrite Hf1|].
  destruct (Hl eq_refl) as (d & Hd & ->).
  destruct (for_each_expire_no_env c now
              (shuffle (w_maporder w1)
                 (map_to_list
                    (subtract
                       (collect ((fun nf => stat_of nf.1 nf.2)
                                   <$> map_to_list d)) used)))
              w1 Hne1) with (q := q)
    as [Heq|(Hnone & [k ent] & Hin & -> & Ho)].
  { intros w' Hw'. apply Hnow. congruence. }
  - left. by rewrite Heq, Hf1.
  - right. split; [done|]. cbn [snd] in *.
    rewrite shuffle_perm in Hin. apply elem_of_map_to_list in Hin.
    apply candidates_have_suffix in Hin as (Hs & Ht & Hnu & He).
    apply listing_elem in He as (f & Hdf & Eent).
    exists (fi_Name ent), f. split; [done|]. split.
    + unfold fs_lookup, Join. cbn [p_dir p_base]. by rewrite Hd.
    + unfold expirable. rewrite Hs, Ht.
      rewrite bool_decide_eq_true_2 by done.
      rewrite Eent in Ho. cbn in Ho. by rewrite Ho.
Qed.

Lemma expireUnused_removes_only_expirable_witness :
  fs_lookup
    (w_fs (expireUnused cache0 []
             (world_of three_files (2 * hour) [quiet; Sched [] (Some EIO)]
                       [])).2)
    (Path "cache" "young.sndx")
  = Some (File [] (2 * hour - hour / 2)).
Proof.
  set (w := world_of three_files (2 * hour) [quiet; Sched [] (Some EIO)] []).
  destruct (expireUnused_removes_only_expirable cache0 [] w (2 * hour)
              (Path "cache" "young.sndx"))
    as [H|(_ & name & f & Hq & Hf & He)].
  - repeat constructor.
  - intros w' Hw'. exact Hw'.
  - rewrite H. vm_compute. reflexivity.
  - exfalso. injection Hq as <-.
    assert (f = File [] (2 * hour - hour / 2)) as ->.
    { vm_compute in Hf. by injection Hf. }
    vm_compute in He. discriminate He.
Defined.

(** X15.  Sweeping twice is sweeping once: in a world without faults and
    interference, with a time source that reads [now] during both calls,
    a second [expireUnused] with the same used set returns nil and
    leaves every path of the disk as the first one left it. *)
Theorem expireUnused_idempotent c used w (d : gmap string file) now q :
  w_script w = [] ->
  w_fs w !! dirname c = Some d ->
  (forall w', w_now w' = w_now w -> timeNow c w' = now) ->
  let w1 := (expireUnused c used w).2 in
  let res := expireUnused c used w1 in
  res.1 = None /\
  fs_lookup (w_fs res.2) q = fs_lookup (w_fs w1) q.
Proof.
  intros Hq Hd Hnow w1 res.
  destruct (expireUnused_quiet c used w d now Hq Hd Hnow)
    as (_ & Hq1 & Hn1 & [d1 Hd1] & Hp1 & Ho1).
  fold w1 in Hq1, Hn1, Hd1, Hp1, Ho1.
  destruct (expireUnused_quiet c used w1 d1 now Hq1 Hd1)
    as (Hr & _ & _ & _ & Hp2 & Ho2).
  { intros w' Hw'. apply Hnow. congruence. }
  fold res in Hr, Hp2, Ho2. split; [done|].
  destruct q as [dir name].
  destruct (decide (dir = dirname c)) as [->|Hdir]; [|by apply Ho2].
  rewrite Hp2.
  assert (d1 !! name = fs_lookup (w_fs w1) (Path (dirname c) name)) as ->.
  { unfold fs_lookup. cbn [p_dir p_base]. by rewrite Hd1. }
  rewrite Hp1. destruct (d !! name) as [f|]; [|done].
  destruct (expirable used now name f) eqn:E; [done|]. by rewrite E.
Qed.

Lemma expireUnused_idempotent_witness :
  fs_lookup
    (w_fs (expireUnused cache0 ["kept"]
             (expireUnused cache0 ["kept"] sweep_world).2).2)
    (Path "cache" "young.sndx")
  = fs_lookup (w_fs (expireUnused cache0 ["kept"] sweep_world).2)
      (Path "cache" "young.sndx").
Proof.
  apply (expireUnused_idempotent cache0 ["kept"] sweep_world
           (list_to_map three_files) (2 * hour)).
  - reflexivity.
  - vm_compute. reflexivity.
  - intros w' Hw'. exact Hw'.
Defined.

(** X16.  Add, wait, sweep, ask.  In a world without faults and
    interference, with the clock of the world as time source: an
    identifier that was not in the cache is added at time [t0], the
    clock then reads [t1] and [expireUnused] runs.  After that
    [hasIndexBlobID] says true exactly when the identifier is in [used]
    or at most one hour has passed. *)
Theorem add_expire_has c id data used w t1 :
  w_script w = [] ->
  (forall w', timeNow c w' = w_now w') ->
  fs_lookup (w_fs w) (indexBlobPath c id) = None ->
  let w1 := (addContentToCache c id data w).2 in
  let w2 := with_now t1 w1 in
  let w3 := (expireUnused c used w2).2 in
  (hasIndexBlobID c id w3).1
  = (bool_decide (id ∈ used)
     || negb (older_than_retention t1 (w_now w)), None).
Proof.
  intros Hq Hclock Habs w1 w2 w3.
  destruct (addContentToCache_quiet_fresh c id data w Hq Habs)
    as (w1' & Hadd & Hq1 & Hn1 & _ & Hf1).
  assert (w1 = w1') as Hw1 by (unfold w1; by rewrite Hadd).
  clearbody w1. subst w1'.
  destruct (fs_put_dir (indexBlobPath c id) (File data (w_now w)) (w_fs w))
    as [d1 Hd1].
  rewrite <- Hf1 in Hd1. cbn [indexBlobPath Join p_dir] in Hd1.
  assert (d1 !! (id +:+ simpleIndexSuffix) = Some (File data (w_now w)))
    as Hd1n.
  { pose proof (fs_lookup_put_eq (indexBlobPath c id)
                  (File data (w_now w)) (w_fs w)) as H.
    rewrite <- Hf1 in H. unfold fs_lookup in H.
    cbn [indexBlobPath Join p_dir p_base] in H. by rewrite Hd1 in H. }
  destruct (expireUnused_quiet c used w2 d1 t1)
    as (_ & Hq3 & _ & _ & Hp3 & _); [done|done| |].
  { intros w' Hw'. rewrite Hclock. exact Hw'. }
  fold w3 in Hq3, Hp3.
  destruct (hasIndexBlobID_quiet c id w3 Hq3) as (w4 & -> & _).
  cbn [fst]. f_equal.
  unfold indexBlobPath, Join. rewrite Hp3, Hd1n.
  unfold expirable. rewrite HasSuffix_app, TrimSuffix_app. cbn [f_mtime].
  destruct (decide (id ∈ used)) as [Hu|Hu].
  - rewrite (bool_decide_eq_true_2 (id ∈ used)) by done.
    rewrite (bool_decide_eq_false_2 (id ∉ used)) by (intros H; by apply H).
    reflexivity.
  - rewrite (bool_decide_eq_false_2 (id ∈ used)) by done.
    rewrite (bool_decide_eq_true_2 (id ∉ used)) by done.
    by destruct (older_than_retention t1 (w_now w)).
Qed.

Lemma add_expire_has_witness :
  (hasIndexBlobID cache0 "abc"
     (expireUnused cache0 []
        (with_now (100 + 2 * hour)
           (addContentToCache cache0 "abc" ["001"%byte] empty_world).2)).2).1
  = (false, None).
Proof.
  rewrite (add_expire_has cache0 "abc" ["001"%byte] [] empty_world
             (100 + 2 * hour)); done.
Defined.

End expire_extra.

(** ** [newBlockCache] *)

Section block_extra.

Import block.
Context {Storage : Type}.

(** X17.  The list-cache duration of the disk variant is the configured
    number of seconds converted to nanoseconds in 64 bits.  The
    conversion is exact exactly when the number of seconds lies between
    -9223372036 and 9223372036 (about 292 years); outside of that range
    the multiplication wraps around and the duration is another value
    of the 64-bit range. *)
Theorem newBlockCache_listCacheDuration
    (st0 : Storage) (caching : CachingOptions) (c : diskBlockCache Storage) :
  (newBlockCache st0 caching).1 = disk c ->
  GoTime.minDuration <= listCacheDuration c <= GoTime.maxDuration /\
  (listCacheDuration c = MaxListCacheDurationSec caching * GoTime.Second
   <-> - 9223372036 <= MaxListCacheDurationSec caching <= 9223372036).
Proof.
  unfold newBlockCache.
  destruct ((MaxCacheSizeBytes caching =? 0)
            || String.eqb (CacheDirectory caching) ""); [done|].
  cbn [fst]. intros [= <-]. cbn [listCacheDuration].
  unfold GoTime.wrap64, GoTime.minDuration, GoTime.maxDuration,
    GoTime.Second.
  set (sec := MaxListCacheDurationSec caching).
  change (2 ^ 63) with 9223372036854775808.
  change (2 ^ 64) with 18446744073709551616.
  pose proof (Z.mod_pos_bound (sec * 1000000000 + 9223372036854775808)
                18446744073709551616 ltac:(lia)) as Hb.
  split; [lia|]. split.
  - intros E. lia.
  - intros Hr. rewrite Z.mod_small; lia.
Qed.

End block_extra.

Lemma newBlockCache_listCacheDuration_witness :
  let caching := {| block.CacheDirectory := "/var/cache";
                    block.MaxCacheSizeBytes := 1000;
                    block.MaxListCacheDurationSec := 30;
                    block.HMACSecret := [] |} in
  exists c,
    (block.newBlockCache tt caching).1 = block.disk c /\
    block.listCacheDuration c = 30 * GoTime.Second.
Proof.
  intros caching. eexists. split; [reflexivity|].
  refine (proj2 (proj2 (newBlockCache_listCacheDuration tt caching _
                          eq_refl)) _).
  cbn. lia.
Defined.
